(** * ErrorBoundary of the Statsig JS client: a shallow embedding

    The TypeScript class [ErrorBoundary] wraps every public operation of the
    client.  It runs a task, lets the two contract-violation errors through,
    reports every other failure once per failure name to a fixed endpoint and
    falls back to a recovery value; it also brackets the task with
    diagnostics markers.

    The embedding keeps the shape of the source: JavaScript values are an
    inductive type, [throw] and [try]/[catch] are an error monad over an
    explicit world, and everything the class does to its surroundings
    (callbacks invoked, [console.error], [fetch]) is appended to a trace. *)

From Stdlib Require Import ZArith QArith Qround Lqa Lia.
From stdpp Require Import base strings list gmap pretty.

Open Scope string_scope.
Open Scope list_scope.

#[local] Set Warnings "-register-all".

(** ** JavaScript values *)

(** Modelled from the spec: the module [./Errors] is not part of the sources.
    It declares the two contract-violation kinds, uninitialized-call and
    invalid-argument, as error classes; with [Error] itself these are the
    classes whose instances the boundary tells apart with [instanceof]. *)
Inductive ErrorClass : Type :=
  | Error
  | StatsigUninitializedError
  | StatsigInvalidArgumentError.

(** A promise is represented by the settlement it reaches.  [VJson v] is the
    string [JSON.stringify] produces for [v], kept symbolic.  [VBigInt] stands
    for the values [JSON.stringify] refuses.  A number is carried as the text
    [String] gives for it ("4", "0.5", "1e+21", "NaN", "Infinity"): the class
    does nothing with a number but turn it into a string or serialise it, and
    that text is all that can be seen of it. *)
Inductive value : Type :=
  | VUndefined
  | VNull
  | VBool (b : bool)
  | VNum (text : string)
  | VStr (s : string)
  | VJson (source : value)
  | VBigInt (n : Z)
  | VObj (props : list (string * value))
  | VError (cls : ErrorClass) (name message : string) (stack : option string)
  | VPromise (p : settled)
with settled : Type :=
  | Fulfilled (v : value)
  | Rejected (reason : value).

(** How a call ends: it returns or it throws. *)
Inductive completion (A : Type) : Type :=
  | Normal (a : A)
  | Throw (e : value).
Arguments Normal {A} a.
Arguments Throw {A} e.

(** [x instanceof C] along the prototype chain [Statsig*Error -> Error]. *)
Definition instanceof (x : value) (C : ErrorClass) : bool :=
  match x, C with
  | VError _ _ _ _, Error => true
  | VError StatsigUninitializedError _ _ _, StatsigUninitializedError => true
  | VError StatsigInvalidArgumentError _ _ _, StatsigInvalidArgumentError => true
  | _, _ => false
  end.

Definition instanceof_Promise (x : value) : bool :=
  match x with VPromise _ => true | _ => false end.

(** [a ?? b] *)
Definition nullish (a b : value) : value :=
  match a with
  | VUndefined | VNull => b
  | _ => a
  end.

(** [obj[key]] on an object literal; a missing key reads [undefined]. *)
Fixpoint get_prop (key : string) (props : list (string * value)) : value :=
  match props with
  | [] => VUndefined
  | (k, v) :: rest => if String.eqb k key then v else get_prop key rest
  end.

(** [String(x)], as a string value. *)
Definition String_ (x : value) : value :=
  match x with
  | VStr _ | VJson _ => x
  | VUndefined => VStr "undefined"
  | VNull => VStr "null"
  | VBool true => VStr "true"
  | VBool false => VStr "false"
  | VNum text => VStr text
  | VBigInt n => VStr (pretty n)
  | VObj _ => VStr "[object Object]"
  | VError _ name message _ =>
      VStr (if String.eqb name "" then message
            else if String.eqb message "" then name
            else name +:+ ": " +:+ message)
  | VPromise _ => VStr "[object Promise]"
  end.

(** [JSON.stringify] throws a [TypeError] on a BigInt anywhere in the value,
    answers [undefined] for [undefined], and a string otherwise. *)
Fixpoint serializable (x : value) : bool :=
  match x with
  | VBigInt _ => false
  | VObj props =>
      (fix all (l : list (string * value)) : bool :=
         match l with
         | [] => true
         | (_, v) :: rest => serializable v && all rest
         end) props
  | _ => true
  end.

Definition stringify_TypeError : value :=
  VError Error "TypeError" "Do not know how to serialize a BigInt" None.

Definition JSON_stringify (x : value) : completion value :=
  match x with
  | VUndefined => Normal VUndefined
  | _ => if serializable x then Normal (VJson x) else Throw stringify_TypeError
  end.

Arguments JSON_stringify : simpl never.

(** ** The world the boundary acts on *)

Record Request : Type := {
  url : string;
  method : string;
  headers : list (string * value);
  body : value
}.

(** Effects visible outside the class, in the order the embedding runs them.
    The code after an [await] and the reactions to a promise are run to
    completion at the point where the source schedules them, so their events
    come before those of the synchronous code that follows the call. *)
Inductive Event : Type :=
  | CallTask
  | CallRecover
  | CallGetExtraData
  | ConsoleError (msg : string) (arg : value)
  | Fetch (req : Request).

(** What the surroundings do: the outcome of [fetch] (which may depend on
    everything that happened before) and the stack a fresh [Error] gets. *)
Class Platform : Type := {
  fetch_outcome : list Event -> Request -> completion value;
  stack_trace : string -> option string
}.

(** Modelled from the spec: the module [./utils/Diagnostics] is not part of
    the sources.  The spec gives a marker as
    [{markerID, start-time, end-time, success, tag, configName?}] in a bounded,
    append-only buffer whose capacity is set at session start; only its
    start / end / max-size contract matters.  [start] appends an open marker
    while there is room and says whether it did; [end_] closes the open
    markers carrying that id.  Times are left out. *)
Module Diagnostics.

(** Modelled from the spec: what [end] adds to a marker. *)
Record MarkerEnd : Type := {
  success : bool;
  configName : option string
}.

(** Modelled from the spec: a marker, open until it is ended. *)
Record Marker : Type := {
  tag : string;
  markerID : string;
  ended : option MarkerEnd
}.

(** Modelled from the spec: the buffer and its capacity. *)
Record t : Type := {
  maxMarkers : nat;
  markers : list Marker
}.

(** Modelled from the spec: [Diagnostics.mark.error_boundary(tag)], the
    handle whose [start] and [end] the boundary calls; the source also
    provides for its absence. *)
Definition mark_error_boundary (tg : string) : option string := Some tg.

(** Modelled from the spec: the capacity set at session start. *)
Definition setMaxMarkers (max : nat) (d : t) : t :=
  {| maxMarkers := max; markers := markers d |}.

(** Modelled from the spec: the number of markers in the buffer. *)
Definition getMarkerCount (d : t) : nat := length (markers d).

(** Modelled from the spec: [start] appends an open marker while the buffer
    has room; its result says whether it did. *)
Definition start (tg id : string) (d : t) : bool * t :=
  if Nat.ltb (length (markers d)) (maxMarkers d)
  then (true,
        {| maxMarkers := maxMarkers d;
           markers := markers d ++ [{| tag := tg; markerID := id; ended := None |}] |})
  else (false, d).

(** Modelled from the spec: [end] completes the open markers with that id. *)
Definition close (id : string) (e : MarkerEnd) (m : Marker) : Marker :=
  match ended m with
  | None =>
      if String.eqb (markerID m) id
      then {| tag := tag m; markerID := markerID m; ended := Some e |}
      else m
  | Some _ => m
  end.

(** Modelled from the spec: [end], see [close]. *)
Definition end_ (id : string) (e : MarkerEnd) (d : t) : t :=
  {| maxMarkers := maxMarkers d; markers := map (close id e) (markers d) |}.

End Diagnostics.

(** The fields of one [ErrorBoundary] instance. *)
Record ErrorBoundary : Type := {
  sdkKey : string;
  statsigMetadata : option (list (string * value));
  seen : gset string
}.

Record World : Type := {
  self : ErrorBoundary;
  diagnostics : Diagnostics.t;
  trace : list Event
}.

(** ** The monad of the embedding: state and exceptions *)

Definition M (A : Type) : Type := World -> completion A * World.

Definition ret {A} (a : A) : M A := fun w => (Normal a, w).

Definition throw {A} (e : value) : M A := fun w => (Throw e, w).

Definition bind {A B} (m : M A) (k : A -> M B) : M B :=
  fun w =>
    match m w with
    | (Normal a, w') => k a w'
    | (Throw e, w') => (Throw e, w')
    end.

Notation "x <- m ;; k" := (bind m (fun x => k))
  (at level 100, m at next level, right associativity).
Notation "m ;; k" := (bind m (fun _ => k))
  (at level 100, right associativity).

(** [try { m } catch (e) { h e }] *)
Definition try_catch {A} (m : M A) (h : value -> M A) : M A :=
  fun w =>
    match m w with
    | (Normal a, w') => (Normal a, w')
    | (Throw e, w') => h e w'
    end.

Definition lift {A} (c : completion A) : M A := fun w => (c, w).

Definition emit (ev : Event) : M unit :=
  fun w =>
    (Normal tt,
     {| self := self w; diagnostics := diagnostics w; trace := trace w ++ [ev] |}).

(** A callback handed to the boundary is given by what calling it does; the
    call itself is recorded. *)
Definition call (ev : Event) (f : completion value) : M value :=
  emit ev ;; lift f.

(** ** Promises *)

(** Resolving a promise with [x] adopts [x] when it is itself a promise. *)
Definition resolve (x : value) : settled :=
  match x with
  | VPromise p => p
  | _ => Fulfilled x
  end.

(** The promise a reaction produces: rejected when the reaction throws. *)
Definition settle (m : M value) : M settled :=
  fun w =>
    match m w with
    | (Normal x, w') => (Normal (resolve x), w')
    | (Throw e, w') => (Normal (Rejected e), w')
    end.

(** [p.catch(onRejected)] *)
Definition promise_catch (p : settled) (onRejected : value -> M value) : M settled :=
  match p with
  | Fulfilled v => ret (Fulfilled v)
  | Rejected e => settle (onRejected e)
  end.

(** [p.then(onFulfilled)] *)
Definition promise_then (p : settled) (onFulfilled : value -> M value) : M settled :=
  match p with
  | Fulfilled v => settle (onFulfilled v)
  | Rejected e => ret (Rejected e)
  end.

(** [await x] inside an async function *)
Definition await (x : value) : M value :=
  match x with
  | VPromise (Fulfilled v) => ret v
  | VPromise (Rejected e) => throw e
  | _ => ret x
  end.

(** ** The class *)

Definition ExceptionEndpoint : string := "https://statsigapi.net/v1/sdk_exception".

Definition MAX_DIAGNOSTICS_MARKERS : nat := 30.
Definition SAMPLING_RATE : Z := 10000.

(** [getExtraData] is given by what calling it does: it throws, or returns a
    value (normally a promise) that the caller awaits. *)
Definition ExtraDataExtractor : Type := completion value.

Record CaptureOptions : Type := {
  getExtraData : option ExtraDataExtractor;
  configName : option string
}.

(** [{}], the default of the [options] parameter. *)
Definition no_options : CaptureOptions :=
  {| getExtraData := None; configName := None |}.

Definition get_self : M ErrorBoundary := fun w => (Normal (self w), w).

Definition set_diagnostics (d : Diagnostics.t) (w : World) : World :=
  {| self := self w; diagnostics := d; trace := trace w |}.

(** [this.seen.add(name)] *)
Definition seen_add (name : string) : M unit :=
  fun w =>
    (Normal tt,
     {| self := {| sdkKey := sdkKey (self w);
                   statsigMetadata := statsigMetadata (self w);
                   seen := {[name]} ∪ seen (self w) |};
        diagnostics := diagnostics w;
        trace := trace w |}).

Definition setStatsigMetadata (metadata : list (string * value)) : M unit :=
  fun w =>
    (Normal tt,
     {| self := {| sdkKey := sdkKey (self w);
                   statsigMetadata := Some metadata;
                   seen := seen (self w) |};
        diagnostics := diagnostics w;
        trace := trace w |}).

Definition setupDiagnostics (maxMarkers : nat) (w : World) : World :=
  set_diagnostics (Diagnostics.setMaxMarkers maxMarkers (diagnostics w)) w.

(** [new ErrorBoundary(sdkKey)]; [random] is the draw of [Math.random()] and
    [d] the state of the diagnostics singleton at that moment. *)
Definition constructor (key : string) (random : Q) (d : Diagnostics.t) : World :=
  let sampling := Qfloor (random * inject_Z SAMPLING_RATE) in
  setupDiagnostics
    (if Z.eqb sampling 0 then MAX_DIAGNOSTICS_MARKERS else 0%nat)
    {| self := {| sdkKey := key; statsigMetadata := None; seen := ∅ |};
       diagnostics := d;
       trace := [] |}.

Definition beginMarker (tag : string) : M (option string) :=
  fun w =>
    match Diagnostics.mark_error_boundary tag with
    | None => (Normal None, w)
    | Some handle =>
        let count := Diagnostics.getMarkerCount (diagnostics w) in
        let markerID := tag +:+ "_" +:+ pretty count in
        let '(wasAdded, d) := Diagnostics.start handle markerID (diagnostics w) in
        (Normal (if wasAdded then Some markerID else None), set_diagnostics d w)
    end.

(** [!markerID]: [null] and the empty string are falsy. *)
Definition falsy (markerID : option string) : bool :=
  match markerID with
  | None => true
  | Some id => String.eqb id ""
  end.

Definition endMarker (tag : string) (wasSuccessful : bool)
    (markerID : option string) (config : option string) : M unit :=
  fun w =>
    match markerID, Diagnostics.mark_error_boundary tag with
    | Some id, Some handle =>
        if falsy markerID then (Normal tt, w)
        else
          (Normal tt,
           set_diagnostics
             (Diagnostics.end_ id
                {| Diagnostics.success := wasSuccessful;
                   Diagnostics.configName := config |}
                (diagnostics w))
             w)
    | _, _ => (Normal tt, w)
    end.

Definition getDescription (obj : value) : value :=
  match JSON_stringify obj with
  | Normal s => s
  | Throw _ => VStr "[Statsig] Failed to get string for error."
  end.

(** [unwrapped.name] and [unwrapped.stack] of an [Error]. *)
Definition error_name (x : value) : string :=
  match x with
  | VError _ name _ _ => name
  | _ => ""
  end.

Definition error_stack (x : value) : value :=
  match x with
  | VError _ _ _ (Some s) => VStr s
  | _ => VUndefined
  end.

Section Boundary.

Context {platform : Platform}.

(** [Error(message)] *)
Definition new_Error (message : string) : value :=
  VError Error "Error" message (stack_trace message).

Definition fetch (req : Request) : M value :=
  fun w =>
    (fetch_outcome (trace w) req,
     {| self := self w; diagnostics := diagnostics w;
        trace := trace w ++ [Fetch req] |}).

(** The failure as [logError] sees it, the name it is filed under and the
    [info] reported for it. *)
Definition unwrap (error : value) : value :=
  nullish error (new_Error "[Statsig] Error was empty").

Definition failure_name (error : value) : string :=
  let unwrapped := unwrap error in
  if instanceof unwrapped Error then error_name unwrapped else "No Name".

Definition failure_info (error : value) : value :=
  let unwrapped := unwrap error in
  if instanceof unwrapped Error then error_stack unwrapped
  else getDescription unwrapped.

(** The object handed to [JSON.stringify] and the request handed to
    [fetch]. *)
Definition report_payload (tag : string) (error : value)
    (metadata : list (string * value)) (extra : value) : value :=
  VObj [("tag", VStr tag);
        ("exception", VStr (failure_name error));
        ("info", failure_info error);
        ("statsigMetadata", VObj metadata);
        ("extra", nullish extra (VObj []))].

Definition report_request (key : string) (metadata : list (string * value))
    (body : value) : Request :=
  {| url := ExceptionEndpoint;
     method := "POST";
     headers :=
       [("STATSIG-API-KEY", VStr key);
        ("STATSIG-SDK-TYPE", String_ (get_prop "sdkType" metadata));
        ("STATSIG-SDK-VERSION", String_ (get_prop "sdkVersion" metadata));
        ("Content-Type", VStr "application/json; charset=UTF-8")];
     body := body |}.

(** The [try] block of the async function inside [logError], cut at its
    [await]: [logError_resume] is the part that runs once the awaited
    extractor has answered [extra]. *)
Definition logError_resume (tag : string) (error : value) (extra : value)
    : M value :=
  let name := failure_name error in
  this <- get_self ;;
  if decide (name ∈ seen this) then ret VUndefined
  else
    seen_add name ;;
    let metadata := default [] (statsigMetadata this) in
    body <- lift (JSON_stringify (report_payload tag error metadata extra)) ;;
    fetch (report_request (sdkKey this) metadata body).

Definition logError_try (tag : string) (error : value)
    (getExtraData : option ExtraDataExtractor) : M value :=
  extra <- match getExtraData with
           | Some f => (promised <- call CallGetExtraData f ;; await promised)
           | None => ret VNull
           end ;;
  logError_resume tag error extra.

(** [(async () => { try { ... } catch (_error) { } })().catch(() => { })]:
    the promise [logError] creates and drops. *)
Definition logError_promise (tag : string) (error : value)
    (getExtraData : option ExtraDataExtractor) : M settled :=
  p <- settle (try_catch (logError_try tag error getExtraData)
                 (fun _error => ret VUndefined)) ;;
  promise_catch p (fun _ => ret VUndefined).

Definition logError (tag : string) (error : value)
    (getExtraData : option ExtraDataExtractor) : M unit :=
  _ <- logError_promise tag error getExtraData ;;
  ret tt.

Definition onCaught (tag : string) (error : value) (recover : completion value)
    (getExtraData : option ExtraDataExtractor) : M value :=
  if instanceof error StatsigUninitializedError
     || instanceof error StatsigInvalidArgumentError
  then throw error
  else
    emit (ConsoleError "[Statsig] An unexpected exception occurred." error) ;;
    logError tag error getExtraData ;;
    call CallRecover recover.

(** [markerID] is assigned inside the [try]: should [beginMarker] throw, the
    handler sees [null].  [wasSuccessful] is cleared by the rejection
    handler, which runs exactly when the task's promise rejects. *)
Definition capture (tag : string) (task recover : completion value)
    (options : CaptureOptions) : M value :=
  fun w =>
    let '(started, w1) := beginMarker tag w in
    let markerID := match started with Normal id => id | Throw _ => None end in
    try_catch
      (_ <- lift started ;;
       result <- call CallTask task ;;
       match result with
       | VPromise p =>
           let wasSuccessful :=
             match p with Fulfilled _ => true | Rejected _ => false end in
           caught <- promise_catch p
                       (fun e => onCaught tag e recover (getExtraData options)) ;;
           chained <- promise_then caught
                        (fun possiblyRecoveredResult =>
                           endMarker tag wasSuccessful markerID None ;;
                           ret possiblyRecoveredResult) ;;
           ret (VPromise chained)
       | _ =>
           endMarker tag true markerID (configName options) ;;
           ret result
       end)
      (fun error =>
         endMarker tag false markerID (configName options) ;;
         onCaught tag error recover (getExtraData options))
      w1.

Definition swallow (tag : string) (task : completion value)
    (options : CaptureOptions) : M unit :=
  _ <- capture tag task (Normal VUndefined) options ;;
  ret tt.

End Boundary.

Arguments report_payload : simpl never.
Arguments report_request : simpl never.
Arguments failure_name : simpl never.
Arguments failure_info : simpl never.

(** ** Sessions *)

(** What happens to one instance, in order: the methods called on it, each
    run to completion, and [Resume], the part of [logError] after its [await]
    run on its own.  The scheduler may run that part long after the call that
    started it, between other operations; up to then such a call has done
    what a call with a failing extractor does, so a session with a late
    answer reads as that call followed, later, by its [Resume]. *)
Inductive Operation : Type :=
  | Capture (tag : string) (task recover : completion value) (options : CaptureOptions)
  | Swallow (tag : string) (task : completion value) (options : CaptureOptions)
  | LogError (tag : string) (error : value) (getExtraData : option ExtraDataExtractor)
  | SetStatsigMetadata (metadata : list (string * value))
  | Resume (tag : string) (error extra : value).

Definition perform {platform : Platform} (op : Operation) (w : World) : World :=
  match op with
  | Capture tag task recover options => snd (capture tag task recover options w)
  | Swallow tag task options => snd (swallow tag task options w)
  | LogError tag error getExtraData => snd (logError tag error getExtraData w)
  | SetStatsigMetadata metadata => snd (setStatsigMetadata metadata w)
  | Resume tag error extra => snd (logError_resume tag error extra w)
  end.

Definition session {platform : Platform} (ops : list Operation) (w : World) : World :=
  fold_left (fun w op => perform op w) ops w.

(** ** What an observer sees *)

(** The requests handed to [fetch] so far, oldest first. *)
Definition requests (w : World) : list Request :=
  omap (fun ev => match ev with Fetch r => Some r | _ => None end) (trace w).

(** The failure name a report carries in the [exception] field of its body. *)
Definition report_name (r : Request) : option string :=
  match body r with
  | VJson (VObj props) =>
      match get_prop "exception" props with
      | VStr n => Some n
      | _ => None
      end
  | _ => None
  end.

Definition reported_names (w : World) : list string :=
  omap report_name (requests w).

Definition is_extractor_call (ev : Event) : bool :=
  match ev with CallGetExtraData => true | _ => false end.

(** How often an extractor has been invoked so far. *)
Definition extractor_calls (w : World) : nat :=
  length (List.filter is_extractor_call (trace w)).

(** The two deliberate contract-violation kinds. *)
Definition contract_violation (e : value) : bool :=
  instanceof e StatsigUninitializedError
  || instanceof e StatsigInvalidArgumentError.

(** The two ways a task can fail with [e], and succeed with [v]:
    synchronously, or through the promise it returns. *)
Definition fails (async : bool) (e : value) : completion value :=
  if async then Normal (VPromise (Rejected e)) else Throw e.

Definition succeeds (async : bool) (v : value) : completion value :=
  if async then Normal (VPromise (Fulfilled v)) else Normal v.

(** The failure a task hands to the recovery path: anything thrown or
    rejected that is not a contract violation. *)
Definition unexpected (task : completion value) : option value :=
  match task with
  | Throw e | Normal (VPromise (Rejected e)) =>
      if contract_violation e then None else Some e
  | Normal _ => None
  end.

(** What [typeof getExtraData === 'function' ? await getExtraData() : null]
    evaluates to. *)
Definition awaited (getExtraData : option ExtraDataExtractor) : completion value :=
  match getExtraData with
  | None => Normal VNull
  | Some (Throw e) => Throw e
  | Some (Normal (VPromise (Fulfilled v))) => Normal v
  | Some (Normal (VPromise (Rejected e))) => Throw e
  | Some (Normal v) => Normal v
  end.

(** The failure an operation passes to the reporting path, with its tag and
    with what awaiting its extractor gives. *)
Definition failure_of (op : Operation)
    : option (string * value * completion value) :=
  match op with
  | Capture tag task _ options | Swallow tag task options =>
      match unexpected task with
      | Some e => Some (tag, e, awaited (getExtraData options))
      | None => None
      end
  | LogError tag error g => Some (tag, error, awaited g)
  | SetStatsigMetadata _ => None
  | Resume tag error extra => Some (tag, error, Normal extra)
  end.

Definition extractor_events (getExtraData : option ExtraDataExtractor) : list Event :=
  match getExtraData with
  | Some _ => [CallGetExtraData]
  | None => []
  end.

Definition add_trace (evs : list Event) (w : World) : World :=
  {| self := self w; diagnostics := diagnostics w; trace := trace w ++ evs |}.

Definition add_seen (name : string) (w : World) : World :=
  {| self := {| sdkKey := sdkKey (self w);
                statsigMetadata := statsigMetadata (self w);
                seen := {[name]} ∪ seen (self w) |};
     diagnostics := diagnostics w;
     trace := trace w |}.

(** The marker [beginMarker] hands back, and the worlds the two marker calls
    leave. *)
Definition marker_of (tag : string) (w : World) : option string :=
  match fst (beginMarker tag w) with
  | Normal id => id
  | Throw _ => None
  end.

Definition begun (tag : string) (w : World) : World := snd (beginMarker tag w).

Definition finished (tag : string) (wasSuccessful : bool) (markerID : option string)
    (config : option string) (w : World) : World :=
  snd (endMarker tag wasSuccessful markerID config w).

(** The promise the chain [.catch(...).then(...)] ends in when the
    rejection handler came back with [c]. *)
Definition chained (c : completion value) : settled :=
  match c with
  | Normal r =>
      match resolve r with
      | Fulfilled x => resolve x
      | Rejected e => Rejected e
      end
  | Throw e => Rejected e
  end.

(** The invariant of a session: no name is reported twice, every request
    carries a name, and every reported name is in [seen]. *)
Definition deduplicated (w : World) : Prop :=
  NoDup (reported_names w)
  /\ length (reported_names w) = length (requests w)
  /\ forall n, n ∈ reported_names w -> n ∈ seen (self w).

Section Summaries.

Context {platform : Platform}.

(** The world after the reporting path has run. *)
Definition reported (tag : string) (error : value)
    (g : option ExtraDataExtractor) (w : World) : World :=
  match awaited g with
  | Throw _ => add_trace (extractor_events g) w
  | Normal extra =>
      snd (logError_resume tag error extra (add_trace (extractor_events g) w))
  end.

(** The world after an unexpected failure has been handled. *)
Definition recovered (tag : string) (e : value)
    (g : option ExtraDataExtractor) (w : World) : World :=
  add_trace [CallRecover]
    (reported tag e g
       (add_trace [ConsoleError "[Statsig] An unexpected exception occurred." e] w)).

(** The requests one run of the reporting path sends, and the instance it
    leaves, as functions of the instance it starts from and of what awaiting
    the extractor gave. *)
Definition sent (tag : string) (error : value)
    (answer : completion value) (this : ErrorBoundary) : list Request :=
  match answer with
  | Throw _ => []
  | Normal extra =>
      if decide (failure_name error ∈ seen this) then []
      else
        let metadata := default [] (statsigMetadata this) in
        match JSON_stringify (report_payload tag error metadata extra) with
        | Throw _ => []
        | Normal body => [report_request (sdkKey this) metadata body]
        end
  end.

Definition noted (error : value) (answer : completion value)
    (this : ErrorBoundary) : ErrorBoundary :=
  match answer with
  | Throw _ => this
  | Normal _ =>
      if decide (failure_name error ∈ seen this) then this
      else {| sdkKey := sdkKey this;
              statsigMetadata := statsigMetadata this;
              seen := {[failure_name error]} ∪ seen this |}
  end.

(** Three sentences of the claims, read literally.  An unexpected failure
    whose name is new is reported and its name is recorded. *)
Definition reports_every_new_name (w : World) (op : Operation) : Prop :=
  forall tag e answer,
    failure_of op = Some (tag, e, answer) ->
    failure_name e ∉ seen (self w) ->
    (exists r, requests (perform op w) = requests w ++ [r]
               /\ report_name r = Some (failure_name e))
    /\ failure_name e ∈ seen (self (perform op w)).

(** The extractor runs only for an unexpected failure whose name has not
    been seen yet. *)
Definition extractor_waits_for_dedup (w : World) (tag : string)
    (task recover : completion value) (options : CaptureOptions) : Prop :=
  (extractor_calls w < extractor_calls (snd (capture tag task recover options w)))%nat ->
  exists e, unexpected task = Some e /\ failure_name e ∉ seen (self w).

(** A contract violation that ends the task reaches the caller of
    [swallow]. *)
Definition violation_leaves_swallow (w : World) (tag : string)
    (options : CaptureOptions) (async : bool) (e : value) : Prop :=
  contract_violation e = true ->
  fst (swallow tag (fails async e) options w) = Throw e.

End Summaries.

(** ** More to observe *)

(** What was written with [console.error] so far: message and argument. *)
Definition console_errors (w : World) : list (string * value) :=
  omap (fun ev => match ev with ConsoleError msg arg => Some (msg, arg) | _ => None end)
    (trace w).

Definition is_task_call (ev : Event) : bool :=
  match ev with CallTask => true | _ => false end.

Definition is_recover_call (ev : Event) : bool :=
  match ev with CallRecover => true | _ => false end.

(** How often a task, and a recovery function, has been invoked so far. *)
Definition task_calls (w : World) : nat :=
  length (List.filter is_task_call (trace w)).

Definition recover_calls (w : World) : nat :=
  length (List.filter is_recover_call (trace w)).

(** The metadata the last [setStatsigMetadata] of a session stored, [m] when
    there was none. *)
Definition last_metadata (ops : list Operation)
    (m : option (list (string * value))) : option (list (string * value)) :=
  fold_left
    (fun m op => match op with SetStatsigMetadata md => Some md | _ => m end)
    ops m.

(** A promise is never fulfilled with a promise. *)
Definition well_formed (p : settled) : bool :=
  match p with
  | Fulfilled (VPromise _) => false
  | _ => true
  end.

(** The events one operation adds to the trace of [w]. *)
Definition events_of {platform : Platform} (op : Operation) (w : World) : list Event :=
  match op with
  | Capture tag task _ options | Swallow tag task options =>
      match unexpected task with
      | Some e =>
          [CallTask; ConsoleError "[Statsig] An unexpected exception occurred." e]
          ++ extractor_events (getExtraData options)
          ++ map Fetch (sent tag e (awaited (getExtraData options)) (self w))
          ++ [CallRecover]
      | None => [CallTask]
      end
  | LogError tag error g =>
      extractor_events g ++ map Fetch (sent tag error (awaited g) (self w))
  | SetStatsigMetadata _ => []
  | Resume tag error extra => map Fetch (sent tag error (Normal extra) (self w))
  end.

(** ** The text of a body *)

(** [JSON.stringify] leaves a property out of the text when its value is
    [undefined]. *)
Definition json_keeps (v : value) : bool :=
  match v with
  | VUndefined => false
  | _ => true
  end.

(** The fields the JSON text of an object spells out, in order. *)
Definition json_fields (text : value) : list string :=
  match text with
  | VJson (VObj props) =>
      map fst (List.filter (fun kv => json_keeps (snd kv)) props)
  | _ => []
  end.

(** A sentence of the claims, read literally: the body of the report a call
    of [logError] sends has exactly the five fields. *)
Definition report_has_the_five_fields {platform : Platform} (w : World)
    (tag : string) (error : value) (g : option ExtraDataExtractor) : Prop :=
  forall r,
    requests (snd (logError tag error g w)) = requests w ++ [r] ->
    json_fields (body r) = ["tag"; "exception"; "info"; "statsigMetadata"; "extra"].

(** An [Error] that carries no stack. *)
Definition stackless_error : value := VError Error "TypeError" "boom" None.

(** A marker store filled to its capacity of two. *)
Definition full_store : Diagnostics.t :=
  {| Diagnostics.maxMarkers := 2;
     Diagnostics.markers :=
       [{| Diagnostics.tag := "checkGate"; Diagnostics.markerID := "checkGate_0";
           Diagnostics.ended :=
             Some {| Diagnostics.success := true; Diagnostics.configName := None |} |};
        {| Diagnostics.tag := "getConfig"; Diagnostics.markerID := "getConfig_1";
           Diagnostics.ended := None |}] |}.

(** ** Worlds and values of the examples *)

(** A network that answers, and one whose [fetch] rejects. *)
Definition online : Platform :=
  {| fetch_outcome := fun _ _ => Normal (VPromise (Fulfilled (VObj [("ok", VBool true)])));
     stack_trace := fun message => Some ("Error: " +:+ message) |}.

Definition offline : Platform :=
  {| fetch_outcome := fun _ _ =>
       Normal (VPromise (Rejected (VError Error "TypeError" "Failed to fetch" None)));
     stack_trace := fun message => Some ("Error: " +:+ message) |}.

Definition no_markers : Diagnostics.t :=
  {| Diagnostics.maxMarkers := 0; Diagnostics.markers := [] |}.

(** A session sampled into diagnostics mode, and one left out. *)
Definition sampled_in : World := constructor "client-key" (1 # 20000) no_markers.
Definition sampled_out : World := constructor "client-key" (1 # 2) no_markers.

Definition type_error : value :=
  VError Error "TypeError" "x is undefined" (Some "TypeError: x is undefined").

Definition uninitialized : value :=
  VError StatsigUninitializedError "Error"
    "Call and wait for initialize() to finish first." None.

Definition extra_ok : ExtraDataExtractor :=
  Normal (VPromise (Fulfilled (VObj [("page", VStr "/home")]))).

Definition extra_rejects : ExtraDataExtractor :=
  Normal (VPromise (Rejected (VStr "no context"))).

(** * Properties *)

(** ** Two runs *)

(** A gate check whose task throws a TypeError, in a fresh session: the
    failure is written to the console, the extractor is asked, one report goes
    out, and the caller gets the recovery value. *)
Example a_thrown_TypeError_is_reported :
  @capture online "checkGate" (Throw type_error) (Normal (VBool false))
    {| getExtraData := Some extra_ok; configName := None |} sampled_out
  = (Normal (VBool false),
     {| self := {| sdkKey := "client-key"; statsigMetadata := None;
                   seen := {["TypeError"]} ∪ ∅ |};
        diagnostics := no_markers;
        trace :=
          [CallTask;
           ConsoleError "[Statsig] An unexpected exception occurred." type_error;
           CallGetExtraData;
           Fetch
             {| url := "https://statsigapi.net/v1/sdk_exception";
                method := "POST";
                headers :=
                  [("STATSIG-API-KEY", VStr "client-key");
                   ("STATSIG-SDK-TYPE", VStr "undefined");
                   ("STATSIG-SDK-VERSION", VStr "undefined");
                   ("Content-Type", VStr "application/json; charset=UTF-8")];
                body :=
                  VJson
                    (VObj
                       [("tag", VStr "checkGate");
                        ("exception", VStr "TypeError");
                        ("info", VStr "TypeError: x is undefined");
                        ("statsigMetadata", VObj []);
                        ("extra", VObj [("page", VStr "/home")])]) |};
           CallRecover] |}).
Proof. reflexivity. Qed.

(** The same task behind a StatsigUninitializedError: the error comes out and
    nothing else happens. *)
Example an_uninitialized_call_is_rethrown :
  @capture online "checkGate" (Throw uninitialized) (Normal (VBool false))
    {| getExtraData := Some extra_ok; configName := None |} sampled_out
  = (Throw uninitialized,
     {| self := {| sdkKey := "client-key"; statsigMetadata := None; seen := ∅ |};
        diagnostics := no_markers;
        trace := [CallTask] |}).
Proof. reflexivity. Qed.

(** ** The reporting path *)

Section Reporting.

Context {platform : Platform}.

Lemma extract_spec (g : option ExtraDataExtractor) (w : World) :
  match g with
  | Some f => (promised <- call CallGetExtraData f ;; await promised)
  | None => ret VNull
  end w = (awaited g, add_trace (extractor_events g) w).
Proof.
  destruct g as [[v|e]|]; cbn.
  - destruct v as [| | | | | | | | |[v|e]]; reflexivity.
  - reflexivity.
  - unfold ret, add_trace. destruct w as [s d t]; cbn. by rewrite app_nil_r.
Qed.

Lemma logError_resume_spec (tag : string) (error extra : value) (w : World) :
  logError_resume tag error extra w =
    if decide (failure_name error ∈ seen (self w)) then (Normal VUndefined, w)
    else
      let metadata := default [] (statsigMetadata (self w)) in
      let w1 := add_seen (failure_name error) w in
      match JSON_stringify (report_payload tag error metadata extra) with
      | Throw e => (Throw e, w1)
      | Normal body =>
          let req := report_request (sdkKey (self w)) metadata body in
          (fetch_outcome (trace w1) req, add_trace [Fetch req] w1)
      end.
Proof.
  unfold logError_resume, bind, get_self.
  destruct (decide (failure_name error ∈ seen (self w))); reflexivity.
Qed.

Lemma logError_try_spec (tag : string) (error : value)
    (g : option ExtraDataExtractor) (w : World) :
  snd (logError_try tag error g w) = reported tag error g w.
Proof.
  unfold logError_try, reported, bind. rewrite extract_spec.
  destruct (awaited g); [|reflexivity].
  destruct (logError_resume _ _ _ _) as [[?|?] ?]; reflexivity.
Qed.

(** None of the handlers around the [try] block touches the world, and
    whatever happens inside, the promise ends up fulfilled. *)
Lemma logError_promise_spec (tag : string) (error : value)
    (g : option ExtraDataExtractor) (w : World) :
  exists v, logError_promise tag error g w
            = (Normal (Fulfilled v), reported tag error g w).
Proof.
  rewrite <- logError_try_spec.
  unfold logError_promise, bind, settle, try_catch, promise_catch, ret.
  destruct (logError_try tag error g w) as [[x|e] w']; cbn.
  - destruct x as [| | | | | | | | |[v|e]]; cbn; eauto.
  - eauto.
Qed.

Lemma logError_spec (tag : string) (error : value)
    (g : option ExtraDataExtractor) (w : World) :
  logError tag error g w = (Normal tt, reported tag error g w).
Proof.
  unfold logError, bind.
  destruct (logError_promise_spec tag error g w) as [v ->]. reflexivity.
Qed.

Lemma stringify_payload (tag : string) (error : value)
    (metadata : list (string * value)) (extra : value) :
  JSON_stringify (report_payload tag error metadata extra)
  = if serializable (report_payload tag error metadata extra)
    then Normal (VJson (report_payload tag error metadata extra))
    else Throw stringify_TypeError.
Proof. reflexivity. Qed.

(** What the part of [logError] after its [await] leaves. *)
Lemma resumed_spec (tag : string) (error extra : value) (w : World) :
  self (snd (logError_resume tag error extra w)) = noted error (Normal extra) (self w)
  /\ diagnostics (snd (logError_resume tag error extra w)) = diagnostics w
  /\ trace (snd (logError_resume tag error extra w))
     = trace w ++ map Fetch (sent tag error (Normal extra) (self w)).
Proof.
  rewrite logError_resume_spec. unfold noted, sent.
  destruct (decide (failure_name error ∈ seen (self w))); cbn.
  - rewrite app_nil_r. auto.
  - destruct (JSON_stringify
                (report_payload tag error (default [] (statsigMetadata (self w))) extra));
      cbn; rewrite ?app_nil_r; auto.
Qed.

Lemma reported_spec (tag : string) (error : value)
    (g : option ExtraDataExtractor) (w : World) :
  self (reported tag error g w) = noted error (awaited g) (self w)
  /\ diagnostics (reported tag error g w) = diagnostics w
  /\ trace (reported tag error g w)
     = trace w ++ extractor_events g
       ++ map Fetch (sent tag error (awaited g) (self w)).
Proof.
  unfold reported.
  destruct (awaited g) as [extra|e].
  - destruct (resumed_spec tag error extra (add_trace (extractor_events g) w))
      as (Hs & Hd & Ht).
    rewrite Hs, Hd, Ht. cbn [add_trace self trace diagnostics].
    by rewrite <- app_assoc.
  - cbn. rewrite app_nil_r. auto.
Qed.

Lemma sent_cases (tag : string) (error : value)
    (answer : completion value) (this : ErrorBoundary) :
  sent tag error answer this = []
  \/ exists r, sent tag error answer this = [r]
               /\ report_name r = Some (failure_name error)
               /\ (failure_name error ∉ seen this)
               /\ (failure_name error ∈ seen (noted error answer this)).
Proof.
  unfold sent, noted.
  destruct answer as [extra|]; [|by left].
  destruct (decide (failure_name error ∈ seen this)) as [|Hnew]; [by left|].
  rewrite stringify_payload.
  destruct (serializable _); [|by left].
  right. eexists. split; [reflexivity|].
  split; [reflexivity|]. split; [assumption|].
  cbn. apply elem_of_union. left. by apply elem_of_singleton.
Qed.

Lemma noted_seen (error : value) (answer : completion value)
    (this : ErrorBoundary) :
  (seen this ⊆ seen (noted error answer this))
  /\ sdkKey (noted error answer this) = sdkKey this
  /\ statsigMetadata (noted error answer this) = statsigMetadata this.
Proof.
  unfold noted. destruct answer; [|auto].
  destruct (decide _); cbn; [auto|].
  split; [apply union_subseteq_r|auto].
Qed.

End Reporting.

(** ** Requests in a trace *)

Lemma requests_of_fetches (l : list Request) :
  omap (fun ev => match ev with Fetch r => Some r | _ => None end) (map Fetch l) = l.
Proof. induction l as [|r l IH]; cbn; [reflexivity | by rewrite IH]. Qed.

Lemma extractor_events_no_request (g : option ExtraDataExtractor) :
  omap (fun ev => match ev with Fetch r => Some r | _ => None end) (extractor_events g) = [].
Proof. destruct g; reflexivity. Qed.

Lemma requests_reported {platform : Platform} (tag : string) (error : value)
    (g : option ExtraDataExtractor) (w : World) :
  requests (reported tag error g w)
  = requests w ++ sent tag error (awaited g) (self w).
Proof.
  destruct (reported_spec tag error g w) as (_ & _ & Ht).
  unfold requests. rewrite Ht, !omap_app.
  rewrite extractor_events_no_request, requests_of_fetches. reflexivity.
Qed.

Lemma extractor_calls_app (evs : list Event) (w w' : World) :
  trace w' = trace w ++ evs ->
  extractor_calls w' = (extractor_calls w + length (List.filter is_extractor_call evs))%nat.
Proof.
  unfold extractor_calls. intros ->. by rewrite List.filter_app, length_app.
Qed.

Lemma fetches_are_no_extractor_calls (l : list Request) :
  List.filter is_extractor_call (map Fetch l) = [].
Proof. induction l as [|r l IH]; cbn; [reflexivity | exact IH]. Qed.

(** ** Markers *)

Lemma beginMarker_spec (tag : string) (w : World) :
  beginMarker tag w = (Normal (marker_of tag w), begun tag w).
Proof.
  unfold marker_of, begun, beginMarker, Diagnostics.start.
  destruct (Nat.ltb _ _); reflexivity.
Qed.

Lemma endMarker_spec (tag : string) (ok : bool) (id config : option string) (w : World) :
  endMarker tag ok id config w = (Normal tt, finished tag ok id config w).
Proof.
  unfold finished, endMarker. cbn.
  destruct id as [id|]; [|reflexivity].
  destruct (falsy (Some id)); reflexivity.
Qed.

Lemma begun_frame (tag : string) (w : World) :
  self (begun tag w) = self w /\ trace (begun tag w) = trace w
  /\ Diagnostics.maxMarkers (diagnostics (begun tag w))
     = Diagnostics.maxMarkers (diagnostics w).
Proof.
  unfold begun, beginMarker, Diagnostics.start.
  destruct (Nat.ltb _ _); cbn; auto.
Qed.

Lemma finished_frame (tag : string) (ok : bool) (id config : option string) (w : World) :
  self (finished tag ok id config w) = self w
  /\ trace (finished tag ok id config w) = trace w
  /\ Diagnostics.maxMarkers (diagnostics (finished tag ok id config w))
     = Diagnostics.maxMarkers (diagnostics w).
Proof.
  unfold finished, endMarker. cbn.
  destruct id as [id|]; [|auto].
  destruct (falsy (Some id)); cbn; auto.
Qed.

Lemma marker_id_not_falsy (tag : string) (n : nat) :
  falsy (Some (tag +:+ "_" +:+ pretty n)) = false.
Proof. destruct tag; reflexivity. Qed.

(** A start marker that was recorded sits open at the end of the store. *)
Lemma begun_started (tag : string) (w : World) (id : string) :
  marker_of tag w = Some id ->
  falsy (Some id) = false
  /\ Diagnostics.markers (diagnostics (begun tag w))
     = Diagnostics.markers (diagnostics w)
       ++ [{| Diagnostics.tag := tag; Diagnostics.markerID := id;
              Diagnostics.ended := None |}].
Proof.
  unfold marker_of, begun, beginMarker, Diagnostics.start.
  cbn [Diagnostics.mark_error_boundary Diagnostics.getMarkerCount].
  destruct (Nat.ltb _ _); cbn; [|discriminate].
  intros [= <-]. split; [apply marker_id_not_falsy|reflexivity].
Qed.

Lemma finished_closes (tag : string) (ok : bool) (id : string) (cn : option string)
    (w : World) (before : list Diagnostics.Marker) :
  falsy (Some id) = false ->
  Diagnostics.markers (diagnostics w)
  = before ++ [{| Diagnostics.tag := tag; Diagnostics.markerID := id;
                  Diagnostics.ended := None |}] ->
  In {| Diagnostics.tag := tag; Diagnostics.markerID := id;
        Diagnostics.ended :=
          Some {| Diagnostics.success := ok; Diagnostics.configName := cn |} |}
     (Diagnostics.markers (diagnostics (finished tag ok (Some id) cn w))).
Proof.
  intros Hid Hm. unfold finished, endMarker.
  cbn [Diagnostics.mark_error_boundary]. rewrite Hid. cbn.
  rewrite Hm, map_app. apply in_or_app. right. left.
  unfold Diagnostics.close. cbn. by rewrite String.eqb_refl.
Qed.

(** ** The wrapped call *)

Section Wrapping.

Context {platform : Platform}.

Lemma onCaught_violation (tag : string) (e : value) (recover : completion value)
    (g : option ExtraDataExtractor) (w : World) :
  contract_violation e = true ->
  onCaught tag e recover g w = (Throw e, w).
Proof.
  unfold contract_violation, onCaught. intros ->. reflexivity.
Qed.

Lemma onCaught_unexpected (tag : string) (e : value) (recover : completion value)
    (g : option ExtraDataExtractor) (w : World) :
  contract_violation e = false ->
  onCaught tag e recover g w = (recover, recovered tag e g w).
Proof.
  unfold contract_violation, onCaught. intros ->.
  unfold bind at 1. cbn.
  unfold bind at 1. rewrite logError_spec.
  reflexivity.
Qed.

Lemma recovered_spec (tag : string) (e : value)
    (g : option ExtraDataExtractor) (w : World) :
  self (recovered tag e g w) = noted e (awaited g) (self w)
  /\ diagnostics (recovered tag e g w) = diagnostics w
  /\ trace (recovered tag e g w)
     = trace w
       ++ [ConsoleError "[Statsig] An unexpected exception occurred." e]
       ++ extractor_events g ++ map Fetch (sent tag e (awaited g) (self w))
       ++ [CallRecover].
Proof.
  unfold recovered.
  destruct (reported_spec tag e g
              (add_trace [ConsoleError "[Statsig] An unexpected exception occurred." e] w))
    as (Hs & Hd & Ht).
  cbn [add_trace self diagnostics trace] in *.
  rewrite Hs, Hd, Ht. rewrite <- !app_assoc. auto.
Qed.

(** [capture], case by case on what the task does. *)
Lemma capture_spec (tag : string) (task recover : completion value)
    (options : CaptureOptions) (w : World) :
  let id := marker_of tag w in
  let w1 := add_trace [CallTask] (begun tag w) in
  capture tag task recover options w =
    match task with
    | Throw e =>
        onCaught tag e recover (getExtraData options)
          (finished tag false id (configName options) w1)
    | Normal (VPromise (Fulfilled v)) =>
        (Normal (VPromise (resolve v)), finished tag true id None w1)
    | Normal (VPromise (Rejected e)) =>
        let '(c, w2) := onCaught tag e recover (getExtraData options) w1 in
        (Normal (VPromise (chained c)),
         match c with
         | Normal r =>
             match resolve r with
             | Fulfilled _ => finished tag false id None w2
             | Rejected _ => w2
             end
         | Throw _ => w2
         end)
    | Normal v => (Normal v, finished tag true id (configName options) w1)
    end.
Proof.
  intros id w1. unfold capture. rewrite beginMarker_spec.
  fold id. unfold try_catch, bind at 1, lift.
  unfold bind at 1, call, bind at 1, emit, lift. cbn [fst snd].
  change {| self := self (begun tag w); diagnostics := diagnostics (begun tag w);
            trace := trace (begun tag w) ++ [CallTask] |} with w1.
  destruct task as [v|e].
  - destruct v as [| | | | | | | | |[v|e]];
      try (unfold bind; rewrite endMarker_spec; reflexivity).
    + unfold bind, promise_catch, ret, promise_then, settle.
      unfold bind. rewrite endMarker_spec. reflexivity.
    + unfold bind at 1. unfold promise_catch, settle.
      destruct (onCaught tag e recover (getExtraData options) w1) as [[r|e'] w2].
      * unfold bind, promise_then, chained.
        destruct (resolve r) as [x|e'']; [|reflexivity].
        unfold settle, bind. rewrite endMarker_spec. reflexivity.
      * reflexivity.
  - unfold bind. rewrite endMarker_spec. reflexivity.
Qed.

(** How [capture] ends. *)
Lemma capture_result_success (tag : string) (recover : completion value)
    (options : CaptureOptions) (w : World) (async : bool) (v : value) :
  instanceof_Promise v = false ->
  fst (capture tag (succeeds async v) recover options w) = succeeds async v.
Proof.
  intros Hv. rewrite capture_spec.
  destruct async; destruct v; try discriminate Hv; reflexivity.
Qed.

Lemma capture_result_violation (tag : string) (recover : completion value)
    (options : CaptureOptions) (w : World) (async : bool) (e : value) :
  contract_violation e = true ->
  fst (capture tag (fails async e) recover options w) = fails async e.
Proof.
  intros He. rewrite capture_spec.
  destruct async; cbn [fails]; by rewrite (onCaught_violation _ _ _ _ _ He).
Qed.

Lemma capture_result_unexpected (tag : string) (recover : completion value)
    (options : CaptureOptions) (w : World) (async : bool) (e : value) :
  contract_violation e = false ->
  fst (capture tag (fails async e) recover options w)
  = if async then Normal (VPromise (chained recover)) else recover.
Proof.
  intros He. rewrite capture_spec.
  destruct async; cbn [fails]; by rewrite (onCaught_unexpected _ _ _ _ _ He).
Qed.

(** What a [capture] call leaves behind, apart from the markers. *)
Lemma capture_world (tag : string) (task recover : completion value)
    (options : CaptureOptions) (w : World) :
  let w' := snd (capture tag task recover options w) in
  Diagnostics.maxMarkers (diagnostics w') = Diagnostics.maxMarkers (diagnostics w)
  /\ match unexpected task with
     | Some e =>
         self w' = noted e (awaited (getExtraData options)) (self w)
         /\ trace w'
            = trace w
              ++ [CallTask;
                  ConsoleError "[Statsig] An unexpected exception occurred." e]
              ++ extractor_events (getExtraData options)
              ++ map Fetch (sent tag e (awaited (getExtraData options)) (self w))
              ++ [CallRecover]
     | None => self w' = self w /\ trace w' = trace w ++ [CallTask]
     end.
Proof.
  intros w'. subst w'. rewrite capture_spec.
  set (id := marker_of tag w).
  set (w1 := add_trace [CallTask] (begun tag w)).
  destruct (begun_frame tag w) as (Hbs & Hbt & Hbm).
  assert (Hw1 : self w1 = self w /\ trace w1 = trace w ++ [CallTask]
                /\ Diagnostics.maxMarkers (diagnostics w1)
                   = Diagnostics.maxMarkers (diagnostics w)).
  { subst w1. cbn. rewrite Hbs, Hbt. auto. }
  destruct Hw1 as (Hs1 & Ht1 & Hm1).
  assert (Hplain : forall ok cn,
    Diagnostics.maxMarkers (diagnostics (finished tag ok id cn w1))
    = Diagnostics.maxMarkers (diagnostics w)
    /\ self (finished tag ok id cn w1) = self w
    /\ trace (finished tag ok id cn w1) = trace w ++ [CallTask]).
  { intros ok cn. destruct (finished_frame tag ok id cn w1) as (Hs & Ht & Hm).
    rewrite Hs, Ht, Hm. auto. }
  destruct task as [v|e]; cbn [unexpected].
  - destruct v as [| | | | | | | | |[v|e]];
      try (cbn [snd]; by apply Hplain).
    destruct (contract_violation e) eqn:He.
    + rewrite (onCaught_violation _ _ _ _ _ He). cbn [snd]. auto.
    + rewrite (onCaught_unexpected _ _ _ _ _ He).
      destruct (recovered_spec tag e (getExtraData options) w1) as (Hs & Hd & Ht).
      set (w2 := recovered tag e (getExtraData options) w1) in *.
      assert (Hout : forall w3 : World,
                self w3 = self w2 -> trace w3 = trace w2
                -> Diagnostics.maxMarkers (diagnostics w3)
                   = Diagnostics.maxMarkers (diagnostics w2)
                -> Diagnostics.maxMarkers (diagnostics w3)
                   = Diagnostics.maxMarkers (diagnostics w)
                   /\ self w3 = noted e (awaited (getExtraData options)) (self w)
                   /\ trace w3
                      = trace w
                        ++ [CallTask;
                            ConsoleError "[Statsig] An unexpected exception occurred." e]
                        ++ extractor_events (getExtraData options)
                        ++ map Fetch (sent tag e (awaited (getExtraData options)) (self w))
                        ++ [CallRecover]).
      { intros w3 E1 E2 E3. rewrite E1, E2, E3, Hs, Hd, Ht, Hs1, Ht1, Hm1.
        rewrite <- !app_assoc. auto. }
      cbn [snd].
      destruct recover as [r|e']; [|by apply Hout].
      destruct (resolve r); [|by apply Hout].
      destruct (finished_frame tag false id None w2) as (? & ? & ?).
      by apply Hout.
  - destruct (contract_violation e) eqn:He.
    + rewrite (onCaught_violation _ _ _ _ _ He). cbn [snd].
      destruct (Hplain false (configName options)) as (? & ? & ?); auto.
    + rewrite (onCaught_unexpected _ _ _ _ _ He). cbn [snd].
      destruct (Hplain false (configName options)) as (Hm & Hs & Ht).
      destruct (recovered_spec tag e (getExtraData options)
                  (finished tag false id (configName options) w1)) as (Hs' & Hd' & Ht').
      rewrite Hs', Hd', Ht', Hs, Ht, Hm. rewrite <- !app_assoc. auto.
Qed.

(** The marker store after a [capture] call, case by case. *)
Lemma capture_diagnostics (tag : string) (task recover : completion value)
    (options : CaptureOptions) (w : World) :
  let id := marker_of tag w in
  let w1 := add_trace [CallTask] (begun tag w) in
  diagnostics (snd (capture tag task recover options w))
  = match task with
    | Throw _ => diagnostics (finished tag false id (configName options) w1)
    | Normal (VPromise (Fulfilled _)) => diagnostics (finished tag true id None w1)
    | Normal (VPromise (Rejected e)) =>
        if contract_violation e then diagnostics w1
        else
          match recover with
          | Normal r =>
              match resolve r with
              | Fulfilled _ => diagnostics (finished tag false id None w1)
              | Rejected _ => diagnostics w1
              end
          | Throw _ => diagnostics w1
          end
    | Normal _ => diagnostics (finished tag true id (configName options) w1)
    end.
Proof.
  intros id w1. rewrite capture_spec. fold id w1.
  assert (Hend : forall ok cn (w2 : World),
            diagnostics w2 = diagnostics w1 ->
            diagnostics (finished tag ok id cn w2)
            = diagnostics (finished tag ok id cn w1)).
  { intros ok cn w2 Hd. unfold finished, endMarker. cbn.
    destruct id as [i|]; [|exact Hd].
    destruct (falsy (Some i)); cbn; [exact Hd|]. by rewrite Hd. }
  destruct task as [v|e].
  - destruct v as [| | | | | | | | |[v|e]]; try reflexivity.
    destruct (contract_violation e) eqn:He.
    + by rewrite (onCaught_violation _ _ _ _ _ He).
    + rewrite (onCaught_unexpected _ _ _ _ _ He). cbn [snd].
      destruct (recovered_spec tag e (getExtraData options) w1) as (_ & Hd & _).
      destruct recover as [r|]; [|exact Hd].
      destruct (resolve r); [|exact Hd].
      by apply Hend.
  - destruct (contract_violation e) eqn:He.
    + by rewrite (onCaught_violation _ _ _ _ _ He).
    + rewrite (onCaught_unexpected _ _ _ _ _ He). cbn [snd].
      apply recovered_spec.
Qed.

Lemma capture_extractor_calls (tag : string) (task recover : completion value)
    (options : CaptureOptions) (w : World) :
  extractor_calls (snd (capture tag task recover options w))
  = (extractor_calls w
     + match unexpected task, getExtraData options with
       | Some _, Some _ => 1
       | _, _ => 0
       end)%nat.
Proof.
  destruct (capture_world tag task recover options w) as (_ & H).
  destruct (unexpected task) as [e|].
  - destruct H as (_ & Ht).
    rewrite (extractor_calls_app _ _ _ Ht). f_equal.
    cbn [app List.filter is_extractor_call].
    rewrite !List.filter_app, fetches_are_no_extractor_calls.
    destruct (getExtraData options); reflexivity.
  - destruct H as (_ & Ht).
    rewrite (extractor_calls_app _ _ _ Ht). reflexivity.
Qed.

Lemma swallow_result (tag : string) (task : completion value)
    (options : CaptureOptions) (w : World) :
  fst (swallow tag task options w)
  = match fst (capture tag task (Normal VUndefined) options w) with
    | Normal _ => Normal tt
    | Throw x => Throw x
    end.
Proof.
  unfold swallow, bind.
  destruct (capture tag task (Normal VUndefined) options w) as [[?|?] ?]; reflexivity.
Qed.

Lemma swallow_world (tag : string) (task : completion value)
    (options : CaptureOptions) (w : World) :
  snd (swallow tag task options w)
  = snd (capture tag task (Normal VUndefined) options w).
Proof.
  unfold swallow, bind.
  destruct (capture tag task (Normal VUndefined) options w) as [[?|?] ?]; reflexivity.
Qed.

End Wrapping.

(** ** Sessions *)

Section Sessions.

Context {platform : Platform}.

(** Every operation, summarised: the capacity stays, the key stays, [seen]
    and the requests grow by what the reporting path adds. *)
Lemma perform_spec (op : Operation) (w : World) :
  Diagnostics.maxMarkers (diagnostics (perform op w))
  = Diagnostics.maxMarkers (diagnostics w)
  /\ sdkKey (self (perform op w)) = sdkKey (self w)
  /\ match failure_of op with
     | Some (tag, e, answer) =>
         requests (perform op w) = requests w ++ sent tag e answer (self w)
         /\ seen (self (perform op w)) = seen (noted e answer (self w))
     | None =>
         requests (perform op w) = requests w
         /\ seen (self (perform op w)) = seen (self w)
     end.
Proof.
  assert (Hcap : forall tag task recover options,
    let w' := snd (capture tag task recover options w) in
    Diagnostics.maxMarkers (diagnostics w') = Diagnostics.maxMarkers (diagnostics w)
    /\ sdkKey (self w') = sdkKey (self w)
    /\ match unexpected task with
       | Some e =>
           requests w' = requests w ++ sent tag e (awaited (getExtraData options)) (self w)
           /\ seen (self w') = seen (noted e (awaited (getExtraData options)) (self w))
       | None => requests w' = requests w /\ seen (self w') = seen (self w)
       end).
  { intros tag task recover options w'.
    destruct (capture_world tag task recover options w) as (Hm & H).
    fold w' in Hm, H. split; [exact Hm|].
    destruct (unexpected task) as [e|].
    - destruct H as (Hs & Ht).
      destruct (noted_seen e (awaited (getExtraData options)) (self w)) as (_ & Hk & _).
      rewrite Hs. split; [exact Hk|]. split; [|reflexivity].
      unfold requests. rewrite Ht, !omap_app.
      rewrite extractor_events_no_request, requests_of_fetches.
      cbn. by rewrite app_nil_r.
    - destruct H as (Hs & Ht). rewrite Hs. split; [reflexivity|].
      split; [|reflexivity].
      unfold requests. rewrite Ht, omap_app. cbn. by rewrite app_nil_r. }
  destruct op as [tag task recover options|tag task options|tag error g|metadata
                 |tag error extra];
    cbn [perform failure_of].
  - specialize (Hcap tag task recover options). cbn zeta in Hcap.
    destruct (unexpected task); exact Hcap.
  - rewrite swallow_world.
    specialize (Hcap tag task (Normal VUndefined) options). cbn zeta in Hcap.
    destruct (unexpected task); exact Hcap.
  - rewrite logError_spec. cbn [snd].
    destruct (reported_spec tag error g w) as (Hs & Hd & _).
    destruct (noted_seen error (awaited g) (self w)) as (_ & Hk & _).
    rewrite Hs, Hd, requests_reported. auto.
  - cbn. auto.
  - destruct (resumed_spec tag error extra w) as (Hs & Hd & Ht).
    destruct (noted_seen error (Normal extra) (self w)) as (_ & Hk & _).
    rewrite Hs, Hd. split; [reflexivity|]. split; [exact Hk|]. split; [|reflexivity].
    unfold requests. rewrite Ht, omap_app, requests_of_fetches. reflexivity.
Qed.

Lemma session_capacity (ops : list Operation) (w : World) :
  Diagnostics.maxMarkers (diagnostics (session ops w))
  = Diagnostics.maxMarkers (diagnostics w).
Proof.
  revert w. induction ops as [|op ops IH]; intros w; [reflexivity|].
  change (session (op :: ops) w) with (session ops (perform op w)).
  rewrite IH. apply perform_spec.
Qed.

Lemma perform_seen_mono (op : Operation) (w : World) :
  seen (self w) ⊆ seen (self (perform op w)).
Proof.
  destruct (perform_spec op w) as (_ & _ & H).
  destruct (failure_of op) as [[[tag e] answer]|]; destruct H as (_ & ->).
  - apply noted_seen.
  - reflexivity.
Qed.

Lemma session_seen_mono (ops : list Operation) (w : World) :
  seen (self w) ⊆ seen (self (session ops w)).
Proof.
  revert w. induction ops as [|op ops IH]; intros w; [reflexivity|].
  cbn. etrans; [apply (perform_seen_mono op)|apply IH].
Qed.

Lemma perform_deduplicated (op : Operation) (w : World) :
  deduplicated w -> deduplicated (perform op w).
Proof.
  intros (Hnd & Hlen & Hin).
  destruct (perform_spec op w) as (_ & _ & H).
  unfold deduplicated, reported_names in *.
  destruct (failure_of op) as [[[tag e] answer]|].
  - destruct H as (Hr & Hs). rewrite Hr, Hs, omap_app.
    destruct (noted_seen e answer (self w)) as (Hsub & _).
    destruct (sent_cases tag e answer (self w))
      as [->|(r & -> & Hname & Hnew & Hadd)].
    + cbn. rewrite !app_nil_r.
      split; [exact Hnd|]. split; [exact Hlen|].
      intros n Hn. apply Hsub, Hin, Hn.
    + cbn. rewrite Hname. cbn. split; [|split].
      * apply NoDup_app. split; [exact Hnd|]. split.
        -- intros n Hn Hn'. apply list_elem_of_singleton in Hn'. subst n.
           apply Hnew, Hin, Hn.
        -- apply NoDup_singleton.
      * rewrite !length_app, Hlen. reflexivity.
      * intros n Hn. apply elem_of_app in Hn as [Hn|Hn].
        -- apply Hsub, Hin, Hn.
        -- apply list_elem_of_singleton in Hn. by subst n.
  - destruct H as (Hr & Hs). rewrite Hr, Hs. auto.
Qed.

Lemma session_deduplicated (ops : list Operation) (w : World) :
  deduplicated w -> deduplicated (session ops w).
Proof.
  revert w. induction ops as [|op ops IH]; intros w Hw; [exact Hw|].
  cbn. apply IH, perform_deduplicated, Hw.
Qed.

Lemma constructor_deduplicated (key : string) (random : Q) (d : Diagnostics.t) :
  deduplicated (constructor key random d).
Proof.
  unfold deduplicated, reported_names, requests. cbn.
  split; [apply NoDup_nil_2|]. split; [reflexivity|].
  intros n Hn. by apply elem_of_nil in Hn.
Qed.

(** A failure whose name is already in [seen] sends nothing. *)
Lemma seen_failure_sends_nothing (op : Operation) (w : World)
    (tag : string) (e : value) (answer : completion value) :
  failure_of op = Some (tag, e, answer) ->
  failure_name e ∈ seen (self w) ->
  requests (perform op w) = requests w.
Proof.
  intros Hop Hseen.
  destruct (perform_spec op w) as (_ & _ & H). rewrite Hop in H.
  destruct H as (-> & _). unfold sent.
  destruct answer; [|by rewrite app_nil_r].
  destruct (decide _); [by rewrite app_nil_r|contradiction].
Qed.

End Sessions.

(** * The claims *)

(** ** Contract violations pass, other failures are recovered *)

Section Propagation.

Context {platform : Platform}.

(** C1.  When the task throws, or returns a promise that rejects with, a
    StatsigUninitializedError or a StatsigInvalidArgumentError [e], [capture]
    ends the same way with the same [e]: it throws [e], or returns a promise
    rejected with [e].  Besides calling the task nothing observable happens:
    [recover] is not called, nothing is written to the console, no extractor
    runs, nothing is sent, and the instance is unchanged. *)
Theorem capture_propagates_contract_violation
    (tag : string) (recover : completion value) (options : CaptureOptions)
    (w : World) (async : bool) (e : value) :
  contract_violation e = true ->
  fst (capture tag (fails async e) recover options w) = fails async e
  /\ trace (snd (capture tag (fails async e) recover options w))
     = trace w ++ [CallTask]
  /\ self (snd (capture tag (fails async e) recover options w)) = self w.
Proof.
  intros He. split; [by apply capture_result_violation|].
  destruct (capture_world tag (fails async e) recover options w) as (_ & H).
  assert (Hnone : unexpected (fails async e) = None).
  { destruct async; cbn; by rewrite He. }
  rewrite Hnone in H. destruct H as (Hs & Ht). auto.
Qed.

(** C2.  A task that completes with [v], directly or through its promise,
    makes [capture] return [v] the same way.  A task that fails with anything
    but a contract violation makes [capture] return what [recover()] returns:
    for a synchronous failure the outcome of [capture] is the outcome of
    [recover()], for a rejected promise [capture] returns a promise fulfilled
    with the value of [recover()]. *)
Theorem capture_returns_result_or_recovery
    (tag : string) (recover : completion value) (options : CaptureOptions)
    (w : World) (async : bool) (v e r : value) :
  instanceof_Promise v = false ->
  contract_violation e = false ->
  instanceof_Promise r = false ->
  fst (capture tag (succeeds async v) recover options w) = succeeds async v
  /\ fst (capture tag (fails async e) (Normal r) options w) = succeeds async r
  /\ fst (capture tag (Throw e) recover options w) = recover.
Proof.
  intros Hv He Hr. split; [by apply capture_result_success|]. split.
  - rewrite (capture_result_unexpected _ _ _ _ _ _ He).
    destruct async; [|reflexivity].
    destruct r; try discriminate Hr; reflexivity.
  - apply (capture_result_unexpected tag recover options w false e He).
Qed.

End Propagation.

Lemma capture_propagates_contract_violation_witness :
  contract_violation uninitialized = true
  /\ fst (@capture offline "checkGate" (fails true uninitialized) (Normal (VBool false))
            {| getExtraData := Some extra_ok; configName := Some "a_gate" |} sampled_in)
     = Normal (VPromise (Rejected uninitialized)).
Proof.
  split; [reflexivity|].
  apply (@capture_propagates_contract_violation offline "checkGate"
           (Normal (VBool false))
           {| getExtraData := Some extra_ok; configName := Some "a_gate" |}
           sampled_in true uninitialized).
  reflexivity.
Defined.

Lemma capture_returns_result_or_recovery_witness :
  fst (@capture online "checkGate" (Normal (VBool true)) (Normal (VBool false))
         no_options sampled_in)
  = Normal (VBool true)
  /\ fst (@capture online "checkGate" (Throw type_error) (Normal (VBool false))
            no_options sampled_in)
     = Normal (VBool false).
Proof.
  destruct (@capture_returns_result_or_recovery online "checkGate"
              (Normal (VBool false)) no_options sampled_in false
              (VBool true) type_error (VBool false)) as (Hok & _ & Hfail);
    [reflexivity | reflexivity | reflexivity |].
  split; [exact Hok | exact Hfail].
Defined.

(** ** Deduplication of reports *)

Section Dedup_claims.

Context {platform : Platform}.

(** C3, as the code has it.  In every session of one instance, however the
    continuations of late extractors are scheduled, no failure name is
    reported twice, and every request carries a name.  A failure whose name
    is already in [seen] sends nothing, whatever the tag and the operation.
    A failure whose name is new is recorded in [seen] once its extractor, if
    any, has answered, and is then sent when the body can be serialised; when
    the extractor throws or rejects, nothing is sent and nothing is
    recorded. *)
Theorem reports_once_per_name
    (key : string) (random : Q) (d : Diagnostics.t) (ops : list Operation) :
  let w := session ops (constructor key random d) in
  (NoDup (reported_names w) /\ length (reported_names w) = length (requests w))
  /\ forall op tag e answer,
       failure_of op = Some (tag, e, answer) ->
       (failure_name e ∈ seen (self w) -> requests (perform op w) = requests w)
       /\ (forall x, answer = Throw x ->
             requests (perform op w) = requests w
             /\ seen (self (perform op w)) = seen (self w))
       /\ (forall extra,
             failure_name e ∉ seen (self w) ->
             answer = Normal extra ->
             (failure_name e ∈ seen (self (perform op w)))
             /\ (serializable
                   (report_payload tag e (default [] (statsigMetadata (self w))) extra)
                 = true ->
                 exists r, requests (perform op w) = requests w ++ [r]
                           /\ report_name r = Some (failure_name e))).
Proof.
  intros w.
  destruct (session_deduplicated ops _ (constructor_deduplicated key random d))
    as (Hnd & Hlen & _).
  fold w in Hnd, Hlen. split; [by split|].
  intros op tag e answer Hop.
  split; [by apply seen_failure_sends_nothing with (tag := tag) (answer := answer)|].
  destruct (perform_spec op w) as (_ & _ & H). rewrite Hop in H.
  destruct H as (Hr & Hs). rewrite Hr, Hs. unfold sent, noted.
  split.
  - intros x ->. by rewrite app_nil_r.
  - intros extra Hnew ->.
    destruct (decide _) as [|_]; [contradiction|]. cbn.
    split; [apply elem_of_union; left; by apply elem_of_singleton|].
    intros Hser. rewrite stringify_payload, Hser. eexists. split; reflexivity.
Qed.

(** C10.  A failure value that is neither an [Error] nor null / undefined is
    filed under the name "No Name"; null and undefined are first replaced by
    a placeholder [Error] and filed under its name.  Once a report named
    "No Name" has gone out in a session, no later failure of that kind,
    whatever its value and whichever operation and tag raised it, sends a
    report. *)
Theorem non_Error_failures_share_one_name
    (key : string) (random : Q) (d : Diagnostics.t) (ops later : list Operation)
    (op : Operation) (tag : string) (e : value) (answer : completion value) :
  instanceof e Error = false ->
  e <> VUndefined ->
  e <> VNull ->
  failure_name e = "No Name"
  /\ failure_name VNull = "Error"
  /\ failure_name VUndefined = "Error"
  /\ let w := session ops (constructor key random d) in
     let w' := session later w in
     "No Name" ∈ reported_names w ->
     failure_of op = Some (tag, e, answer) ->
     requests (perform op w') = requests w'.
Proof.
  intros Hne Hu Hn.
  assert (Hname : failure_name e = "No Name").
  { unfold failure_name, unwrap.
    destruct e as [| | | | | | | |cls ? ? ?|];
      try contradiction; try reflexivity.
    destruct cls; discriminate Hne. }
  split; [exact Hname|]. split; [reflexivity|]. split; [reflexivity|].
  intros w w' Hrep Hop.
  apply seen_failure_sends_nothing with (tag := tag) (e := e) (answer := answer);
    [exact Hop|].
  rewrite Hname.
  apply (session_seen_mono later w).
  destruct (session_deduplicated ops _ (constructor_deduplicated key random d))
    as (_ & _ & Hin).
  apply Hin, Hrep.
Qed.

End Dedup_claims.

(** A first failure named "TypeError" has been reported; the same name again
    sends nothing, a new name is recorded. *)
Lemma reports_once_per_name_witness :
  let w := @session online
             [Capture "checkGate" (Throw type_error) (Normal (VBool false)) no_options]
             (constructor "client-key" (1 # 2) no_markers) in
  requests (@perform online (LogError "logEvent" type_error (Some extra_ok)) w)
  = requests w
  /\ "No Name" ∈ seen (self (@perform online (LogError "logEvent" (VStr "oops") None) w)).
Proof.
  intros w.
  destruct (@reports_once_per_name online "client-key" (1 # 2) no_markers
              [Capture "checkGate" (Throw type_error) (Normal (VBool false)) no_options])
    as (_ & H).
  split.
  - destruct (H (LogError "logEvent" type_error (Some extra_ok))
                "logEvent" type_error (awaited (Some extra_ok)) eq_refl) as (Hseen & _).
    apply Hseen. apply (bool_decide_unpack _). vm_compute. exact I.
  - destruct (H (LogError "logEvent" (VStr "oops") None)
                "logEvent" (VStr "oops") (Normal VNull) eq_refl) as (_ & _ & Hnew).
    apply (Hnew VNull).
    + apply (bool_decide_unpack _). vm_compute. exact I.
    + reflexivity.
Defined.

(** C3 read literally fails: the first "TypeError" of a session comes with an
    extractor that rejects; nothing is sent. *)
Lemma new_name_not_always_reported :
  ~ @reports_every_new_name online sampled_out
      (Capture "checkGate" (Throw type_error) (Normal (VBool false))
         {| getExtraData := Some extra_rejects; configName := None |}).
Proof.
  intros H.
  destruct (H "checkGate" type_error (awaited (Some extra_rejects)) eq_refl)
    as ((r & Hr & _) & _).
  - apply (bool_decide_unpack _). vm_compute. exact I.
  - vm_compute in Hr. discriminate Hr.
Qed.

Lemma non_Error_failures_share_one_name_witness :
  let w := @session online
             [Capture "logEvent" (Throw (VStr "oops")) (Normal VUndefined) no_options]
             (constructor "client-key" (1 # 2) no_markers) in
  let w' := @session online [SetStatsigMetadata [("sdkType", VStr "js-client")]] w in
  requests (@perform online
              (Capture "checkGate" (fails true (VNum "404")) (Normal (VBool false))
                 {| getExtraData := Some extra_ok; configName := None |}) w')
  = requests w'.
Proof.
  intros w w'.
  refine (proj2 (proj2 (proj2
            (@non_Error_failures_share_one_name online "client-key" (1 # 2)
               no_markers
               [Capture "logEvent" (Throw (VStr "oops")) (Normal VUndefined) no_options]
               [SetStatsigMetadata [("sdkType", VStr "js-client")]]
               (Capture "checkGate" (fails true (VNum "404")) (Normal (VBool false))
                  {| getExtraData := Some extra_ok; configName := None |})
               "checkGate" (VNum "404") (awaited (Some extra_ok)) _ _ _))) _ _).
  - reflexivity.
  - discriminate.
  - discriminate.
  - apply (bool_decide_unpack _). vm_compute. exact I.
  - reflexivity.
Defined.

(** ** The report, the capacity, the safety of the reporting path *)

Section Report_claims.

Context {platform : Platform}.

(** With [Math.random()] in [0, 1) the sampling draw is 0 exactly when the
    random number is below 1/10000. *)
Lemma sampling_zero_iff (random : Q) :
  (0 <= random)%Q ->
  Qfloor (random * inject_Z SAMPLING_RATE) = 0%Z <-> (random < 1 # 10000)%Q.
Proof.
  intros Hpos. unfold SAMPLING_RATE.
  pose proof (Qfloor_le (random * inject_Z 10000)) as Hle.
  pose proof (Qlt_floor (random * inject_Z 10000)) as Hlt.
  split.
  - intros H0. rewrite H0 in Hlt.
    change (inject_Z (0 + 1)) with 1%Q in Hlt.
    change (inject_Z 10000) with (10000 # 1)%Q in Hlt. lra.
  - intros Hsmall.
    assert (H1 : (0 <= Qfloor (random * inject_Z 10000))%Z).
    { change 0%Z with (Qfloor 0) at 1. apply Qfloor_resp_le.
      change (inject_Z 10000) with (10000 # 1)%Q. lra. }
    assert (H2 : (Qfloor (random * inject_Z 10000) < 1)%Z).
    { rewrite Zlt_Qlt. change (inject_Z 1) with 1%Q.
      eapply Qle_lt_trans; [exact Hle|].
      change (inject_Z 10000) with (10000 # 1)%Q. lra. }
    lia.
Qed.

(** C6.  The constructor sets the marker capacity to 30 when the sampling
    draw [floor(Math.random() * 10000)] is 0 and to 0 otherwise, and no
    sequence of operations on the instance changes it afterwards. *)
Theorem marker_capacity_fixed_at_construction
    (key : string) (random : Q) (d : Diagnostics.t) (ops : list Operation) :
  let w := constructor key random d in
  Diagnostics.maxMarkers (diagnostics w)
  = (if Z.eqb (Qfloor (random * inject_Z SAMPLING_RATE)) 0
     then MAX_DIAGNOSTICS_MARKERS else 0%nat)
  /\ MAX_DIAGNOSTICS_MARKERS = 30%nat
  /\ (Diagnostics.maxMarkers (diagnostics w) = 30%nat
      \/ Diagnostics.maxMarkers (diagnostics w) = 0%nat)
  /\ Diagnostics.maxMarkers (diagnostics (session ops w))
     = Diagnostics.maxMarkers (diagnostics w).
Proof.
  intros w. split; [reflexivity|]. split; [reflexivity|]. split.
  - subst w. unfold constructor, setupDiagnostics, set_diagnostics. cbn.
    destruct (Z.eqb _ 0); auto.
  - apply session_capacity.
Qed.

(** C7, as the code has it.  A call of [logError] hands at most one request
    to [fetch], and exactly one when the awaited extractor answered, the name
    of the failure is new and the body can be serialised.  That request is a
    POST to [ExceptionEndpoint]; its headers carry the sdk key and
    [String(sdkType)] and [String(sdkVersion)] of the stored metadata; its
    body is the JSON text of the object with the properties tag, exception,
    info, statsigMetadata and extra, where exception is the failure's name,
    info is the stack of an [Error] and the JSON description of anything else,
    statsigMetadata is the stored metadata (or [{}]) and extra is what the
    extractor resolved to (or [{}]).  The text spells out tag, exception,
    statsigMetadata and extra, and info unless info is [undefined], as it is
    for an [Error] without a stack. *)
Theorem logError_report_fields
    (tag : string) (error : value) (g : option ExtraDataExtractor) (w : World)
    (extra : value) :
  let w' := snd (logError tag error g w) in
  let metadata := default [] (statsigMetadata (self w)) in
  let info :=
    if instanceof (unwrap error) Error then error_stack (unwrap error)
    else getDescription (unwrap error) in
  let payload :=
    VObj
      [("tag", VStr tag);
       ("exception", VStr (failure_name error));
       ("info", info);
       ("statsigMetadata", VObj metadata);
       ("extra", nullish extra (VObj []))] in
  (requests w' = requests w \/ exists r, requests w' = requests w ++ [r])
  /\ (awaited g = Normal extra ->
      failure_name error ∉ seen (self w) ->
      serializable payload = true ->
      requests w'
      = requests w
        ++ [{| url := "https://statsigapi.net/v1/sdk_exception";
               method := "POST";
               headers :=
                 [("STATSIG-API-KEY", VStr (sdkKey (self w)));
                  ("STATSIG-SDK-TYPE", String_ (get_prop "sdkType" metadata));
                  ("STATSIG-SDK-VERSION", String_ (get_prop "sdkVersion" metadata));
                  ("Content-Type", VStr "application/json; charset=UTF-8")];
               body := VJson payload |}]
      /\ json_fields (VJson payload)
         = ["tag"; "exception"] ++ (if json_keeps info then ["info"] else [])
           ++ ["statsigMetadata"; "extra"])
  /\ (failure_name error ∈ seen (self w)
      \/ (exists x, awaited g = Throw x)
      \/ (awaited g = Normal extra /\ serializable payload = false) ->
      requests w' = requests w)
  /\ (forall cls name message stack,
        unwrap error = VError cls name message stack ->
        info = match stack with Some s => VStr s | None => VUndefined end).
Proof.
  intros w' metadata info payload. subst w'.
  rewrite logError_spec. cbn [snd]. rewrite requests_reported.
  change payload with (report_payload tag error metadata extra).
  assert (Hsent : forall answer,
            sent tag error answer (self w) = []
            \/ exists r, sent tag error answer (self w) = [r]).
  { intros answer. destruct (sent_cases tag error answer (self w))
      as [->|(r & -> & _)]; eauto. }
  split; [|split; [|split]].
  - destruct (Hsent (awaited g)) as [->|(r & ->)]; [left; by rewrite app_nil_r|eauto].
  - intros -> Hnew Hser. unfold sent.
    destruct (decide _) as [|_]; [contradiction|].
    fold metadata. rewrite stringify_payload, Hser. split; [reflexivity|].
    unfold report_payload, json_fields. cbn [List.filter snd json_keeps map fst].
    change (failure_info error) with info.
    assert (Hextra : json_keeps (nullish extra (VObj [])) = true)
      by (destruct extra; reflexivity).
    rewrite Hextra. destruct (json_keeps info); reflexivity.
  - unfold sent. intros [Hseen|[(x & ->)|(-> & Hser)]].
    + destruct (awaited g); [|by rewrite app_nil_r].
      destruct (decide _); [by rewrite app_nil_r|contradiction].
    + by rewrite app_nil_r.
    + destruct (decide _); [by rewrite app_nil_r|].
      fold metadata. rewrite stringify_payload, Hser. by rewrite app_nil_r.
  - intros cls name message stack Hu. subst info. rewrite Hu.
    destruct cls, stack; reflexivity.
Qed.

(** C9.  Whatever the failure value, the extractor, the stored metadata and
    [fetch] do, [logError] returns normally and the promise it creates and
    drops is fulfilled, so no rejection is left unhandled; and [onCaught]
    ends as [recover()] does for every failure that is not a contract
    violation, whatever the reporting path met. *)
Theorem logError_never_fails
    (tag : string) (error : value) (g : option ExtraDataExtractor) (w : World)
    (recover : completion value) :
  fst (logError tag error g w) = Normal tt
  /\ (exists v, fst (logError_promise tag error g w) = Normal (Fulfilled v))
  /\ fst (onCaught tag error recover g w)
     = if contract_violation error then Throw error else recover.
Proof.
  split; [by rewrite logError_spec|]. split.
  - destruct (logError_promise_spec tag error g w) as [v ->]. by exists v.
  - destruct (contract_violation error) eqn:He.
    + by rewrite onCaught_violation.
    + by rewrite onCaught_unexpected.
Qed.

End Report_claims.

Lemma logError_report_fields_witness :
  map (fun r => json_fields (body r))
    (requests (snd (@logError online "logEvent" type_error (Some extra_ok) sampled_out)))
  = [["tag"; "exception"; "info"; "statsigMetadata"; "extra"]].
Proof.
  destruct (@logError_report_fields online "logEvent" type_error (Some extra_ok)
              sampled_out (VObj [("page", VStr "/home")])) as (_ & H & _).
  destruct H as (Hr & Hf).
  - reflexivity.
  - apply (bool_decide_unpack _). vm_compute. exact I.
  - reflexivity.
  - rewrite Hr. reflexivity.
Defined.

(** C7 read literally fails: the report for an [Error] without a stack is
    sent, and its JSON text has no [info]. *)
Lemma stackless_error_report_lacks_info :
  ~ @report_has_the_five_fields online sampled_out "logEvent" stackless_error None.
Proof.
  intros H. specialize (H _ eq_refl). vm_compute in H. discriminate H.
Qed.

(** ** When the extractor runs *)

Section Extractor_claims.

Context {platform : Platform}.

(** C8, as the code has it.  One [capture] call invokes the extractor at most
    once.  It does not invoke it when the task completes, directly or through
    its promise, nor when the task fails with a contract violation.  It
    invokes it exactly once when the task fails with anything else, whether
    or not the name of the failure is already in [seen]. *)
Theorem extractor_runs_on_every_unexpected_failure
    (tag : string) (task recover : completion value) (options : CaptureOptions)
    (w : World) (async : bool) (v e : value) (f : ExtraDataExtractor) :
  extractor_calls (snd (capture tag task recover options w))
  = (extractor_calls w
     + match unexpected task, getExtraData options with
       | Some _, Some _ => 1
       | _, _ => 0
       end)%nat
  /\ (instanceof_Promise v = false ->
      extractor_calls (snd (capture tag (succeeds async v) recover options w))
      = extractor_calls w)
  /\ (contract_violation e = true ->
      extractor_calls (snd (capture tag (fails async e) recover options w))
      = extractor_calls w)
  /\ (contract_violation e = false ->
      getExtraData options = Some f ->
      extractor_calls (snd (capture tag (fails async e) recover options w))
      = S (extractor_calls w)).
Proof.
  rewrite !capture_extractor_calls.
  split; [reflexivity|]. split; [|split].
  - intros Hv. destruct async; cbn.
    + lia.
    + destruct v; try discriminate Hv; cbn; lia.
  - intros He. destruct async; cbn; rewrite He; lia.
  - intros He ->. destruct async; cbn; rewrite He; lia.
Qed.

End Extractor_claims.

Lemma extractor_runs_on_every_unexpected_failure_witness :
  let w := @session online
             [Capture "checkGate" (Throw type_error) (Normal (VBool false)) no_options]
             sampled_out in
  "TypeError" ∈ seen (self w)
  /\ extractor_calls
       (snd (@capture online "getConfig" (fails false type_error) (Normal VNull)
               {| getExtraData := Some extra_ok; configName := None |} w))
     = S (extractor_calls w).
Proof.
  intros w. split.
  - apply (bool_decide_unpack _). vm_compute. exact I.
  - destruct (@extractor_runs_on_every_unexpected_failure online "getConfig"
                (Throw type_error) (Normal VNull)
                {| getExtraData := Some extra_ok; configName := None |}
                w false VNull type_error extra_ok) as (_ & _ & _ & H).
    apply H; reflexivity.
Defined.

(** C8 read literally fails: "TypeError" is already in [seen] when the second
    task throws it, nothing is sent, and yet the extractor is called. *)
Lemma extractor_called_for_seen_name :
  ~ @extractor_waits_for_dedup online
      (@session online
         [Capture "checkGate" (Throw type_error) (Normal (VBool false)) no_options]
         sampled_out)
      "getConfig" (Throw type_error) (Normal VNull)
      {| getExtraData := Some extra_ok; configName := None |}.
Proof.
  intros H. destruct H as (e & He & Hnew).
  - apply Nat.ltb_lt. vm_compute. reflexivity.
  - injection He as <-. apply Hnew.
    apply (bool_decide_unpack _). vm_compute. exact I.
Qed.

(** ** [swallow] *)

Section Swallow_claims.

Context {platform : Platform}.

(** C5, as the code has it.  [swallow] runs [capture] with a [recover] that
    returns [undefined], leaves exactly the world that call leaves, throws
    what it throws and otherwise returns nothing.  An unexpected failure of
    the task becomes a no-op.  A contract violation thrown by the task is
    thrown by [swallow]; one that rejects the task's promise is not: the
    rejected promise [capture] returns is dropped and [swallow] returns. *)
Theorem swallow_is_capture_without_result
    (tag : string) (task : completion value) (options : CaptureOptions)
    (w : World) (async : bool) (e : value) :
  snd (swallow tag task options w)
  = snd (capture tag task (Normal VUndefined) options w)
  /\ fst (swallow tag task options w)
     = match fst (capture tag task (Normal VUndefined) options w) with
       | Normal _ => Normal tt
       | Throw x => Throw x
       end
  /\ (contract_violation e = false ->
      fst (swallow tag (fails async e) options w) = Normal tt)
  /\ (contract_violation e = true ->
      fst (swallow tag (fails async e) options w)
      = if async then Normal tt else Throw e).
Proof.
  split; [apply swallow_world|]. split; [apply swallow_result|]. split.
  - intros He. rewrite swallow_result, (capture_result_unexpected _ _ _ _ _ _ He).
    destruct async; reflexivity.
  - intros He. rewrite swallow_result, (capture_result_violation _ _ _ _ _ _ He).
    destruct async; reflexivity.
Qed.

End Swallow_claims.

Lemma swallow_is_capture_without_result_witness :
  fst (@swallow online "logEvent" (fails false uninitialized) no_options sampled_out)
  = Throw uninitialized
  /\ fst (@swallow online "logEvent" (fails true type_error) no_options sampled_out)
     = Normal tt.
Proof.
  split.
  - destruct (@swallow_is_capture_without_result online "logEvent" (Normal VNull)
                no_options sampled_out false uninitialized) as (_ & _ & _ & H).
    apply H. reflexivity.
  - destruct (@swallow_is_capture_without_result online "logEvent" (Normal VNull)
                no_options sampled_out true type_error) as (_ & _ & H & _).
    apply H. reflexivity.
Defined.

(** C5 read literally fails: the task's promise rejects with a
    StatsigUninitializedError and [swallow] returns as if nothing happened. *)
Lemma rejected_violation_stays_in_swallow :
  ~ @violation_leaves_swallow online sampled_out "logEvent" no_options true uninitialized.
Proof.
  intros H. specialize (H eq_refl). vm_compute in H. discriminate H.
Qed.

(** ** Diagnostics markers around the task *)

Section Marker_claims.

Context {platform : Platform}.

(** The part of C4 the code keeps: a synchronous task whose start marker was
    recorded gets its end marker, with the success flag and the configName
    of the options. *)
Lemma sync_capture_closes_its_marker (tag : string) (task recover : completion value)
    (options : CaptureOptions) (w : World) (id : string) :
  marker_of tag w = Some id ->
  match task with Normal v => instanceof_Promise v = false | Throw _ => True end ->
  In {| Diagnostics.tag := tag; Diagnostics.markerID := id;
        Diagnostics.ended :=
          Some {| Diagnostics.success :=
                    match task with Normal _ => true | Throw _ => false end;
                  Diagnostics.configName := configName options |} |}
     (Diagnostics.markers (diagnostics (snd (capture tag task recover options w)))).
Proof.
  intros Hid Hsync. rewrite capture_diagnostics, Hid.
  destruct (begun_started tag w id Hid) as (Hf & Hm).
  destruct task as [v|e].
  - destruct v; try discriminate Hsync;
      by apply finished_closes with (before := Diagnostics.markers (diagnostics w)).
  - by apply finished_closes with (before := Diagnostics.markers (diagnostics w)).
Qed.

(** The part it loses: for a task whose promise fulfils, the end marker is
    written without the configName, whatever the options say. *)
Lemma promise_capture_drops_configName (tag : string) (v : value)
    (recover : completion value) (options : CaptureOptions) (w : World) (id : string) :
  marker_of tag w = Some id ->
  In {| Diagnostics.tag := tag; Diagnostics.markerID := id;
        Diagnostics.ended :=
          Some {| Diagnostics.success := true; Diagnostics.configName := None |} |}
     (Diagnostics.markers
        (diagnostics (snd (capture tag (succeeds true v) recover options w)))).
Proof.
  intros Hid. rewrite capture_diagnostics, Hid. cbn [succeeds].
  destruct (begun_started tag w id Hid) as (Hf & Hm).
  by apply finished_closes with (before := Diagnostics.markers (diagnostics w)).
Qed.

(** With capacity zero nothing is recorded. *)
Lemma unsampled_capture_records_nothing (tag : string)
    (task recover : completion value) (options : CaptureOptions) (w : World) :
  Diagnostics.maxMarkers (diagnostics w) = 0%nat ->
  diagnostics (snd (capture tag task recover options w)) = diagnostics w.
Proof.
  intros Hzero. rewrite capture_diagnostics.
  assert (Hid : marker_of tag w = None /\ diagnostics (begun tag w) = diagnostics w).
  { unfold marker_of, begun, beginMarker, Diagnostics.start.
    cbn [Diagnostics.mark_error_boundary]. rewrite Hzero.
    replace (Nat.ltb _ 0) with false by (symmetry; apply Nat.ltb_ge; lia).
    cbn. auto. }
  destruct Hid as (-> & Hd).
  assert (Hend : forall ok cn,
            diagnostics (finished tag ok None cn (add_trace [CallTask] (begun tag w)))
            = diagnostics w).
  { intros ok cn. unfold finished, endMarker. cbn. exact Hd. }
  destruct task as [v|e]; [|apply Hend].
  destruct v as [| | | | | | | | |[v|e]]; try apply Hend.
  destruct (contract_violation e); [exact Hd|].
  destruct recover as [r|]; [|exact Hd].
  destruct (resolve r); [apply Hend|exact Hd].
Qed.

End Marker_claims.

(** C4, where the code departs from it.  In a session sampled into
    diagnostics mode a task whose promise fulfils has its start marker
    recorded and its end marker written with success [true] but without the
    configName of the options, which the same call with a synchronous task
    records; and a task whose promise rejects with a contract violation leaves
    its marker without an end. *)
Theorem promise_task_end_marker_lacks_configName :
  let options := {| getExtraData := None; configName := Some "a_config" |} in
  let markers_after task :=
    Diagnostics.markers
      (diagnostics (snd (@capture online "getConfig" task (Normal VNull) options sampled_in))) in
  markers_after (succeeds true (VNum "7"))
  = [{| Diagnostics.tag := "getConfig"; Diagnostics.markerID := "getConfig_0";
        Diagnostics.ended :=
          Some {| Diagnostics.success := true; Diagnostics.configName := None |} |}]
  /\ markers_after (succeeds false (VNum "7"))
     = [{| Diagnostics.tag := "getConfig"; Diagnostics.markerID := "getConfig_0";
           Diagnostics.ended :=
             Some {| Diagnostics.success := true;
                     Diagnostics.configName := Some "a_config" |} |}]
  /\ markers_after (fails true uninitialized)
     = [{| Diagnostics.tag := "getConfig"; Diagnostics.markerID := "getConfig_0";
           Diagnostics.ended := None |}].
Proof. repeat split; vm_compute; reflexivity. Qed.

(** * Further properties of the class *)

(** ** What one operation adds to the trace *)

Section Traces.

Context {platform : Platform}.

Lemma perform_trace (op : Operation) (w : World) :
  trace (perform op w) = trace w ++ events_of op w.
Proof.
  destruct op as [tag task recover options|tag task options|tag error g|metadata
                 |tag error extra];
    cbn [perform events_of].
  - destruct (capture_world tag task recover options w) as (_ & H).
    destruct (unexpected task); destruct H as (_ & Ht); exact Ht.
  - rewrite swallow_world.
    destruct (capture_world tag task (Normal VUndefined) options w) as (_ & H).
    destruct (unexpected task); destruct H as (_ & Ht); exact Ht.
  - rewrite logError_spec. apply reported_spec.
  - cbn. by rewrite app_nil_r.
  - apply resumed_spec.
Qed.

Lemma perform_self (op : Operation) (w : World) :
  sdkKey (self (perform op w)) = sdkKey (self w)
  /\ statsigMetadata (self (perform op w))
     = match op with
       | SetStatsigMetadata md => Some md
       | _ => statsigMetadata (self w)
       end.
Proof.
  destruct op as [tag task recover options|tag task options|tag error g|metadata
                 |tag error extra];
    cbn [perform].
  - destruct (capture_world tag task recover options w) as (_ & H).
    destruct (unexpected task) as [e|]; destruct H as (-> & _); [|auto].
    destruct (noted_seen e (awaited (getExtraData options)) (self w)) as (_ & ? & ?).
    auto.
  - rewrite swallow_world.
    destruct (capture_world tag task (Normal VUndefined) options w) as (_ & H).
    destruct (unexpected task) as [e|]; destruct H as (-> & _); [|auto].
    destruct (noted_seen e (awaited (getExtraData options)) (self w)) as (_ & ? & ?).
    auto.
  - rewrite logError_spec. cbn [snd].
    destruct (reported_spec tag error g w) as (-> & _).
    destruct (noted_seen error (awaited g) (self w)) as (_ & ? & ?). auto.
  - cbn. auto.
  - destruct (resumed_spec tag error extra w) as (-> & _).
    destruct (noted_seen error (Normal extra) (self w)) as (_ & ? & ?). auto.
Qed.

Lemma fetches_are_silent (l : list Request) :
  omap (fun ev => match ev with ConsoleError msg arg => Some (msg, arg) | _ => None end)
    (map Fetch l) = []
  /\ List.filter is_task_call (map Fetch l) = []
  /\ List.filter is_recover_call (map Fetch l) = [].
Proof. induction l as [|r l (IH1 & IH2 & IH3)]; cbn; auto. Qed.

Lemma extractor_events_are_silent (g : option ExtraDataExtractor) :
  omap (fun ev => match ev with ConsoleError msg arg => Some (msg, arg) | _ => None end)
    (extractor_events g) = []
  /\ List.filter is_task_call (extractor_events g) = []
  /\ List.filter is_recover_call (extractor_events g) = [].
Proof. destruct g; cbn; auto. Qed.

(** X4.  Every unexpected failure that [capture] or [swallow] catches is
    written to the console once, with the fixed message and the failure
    itself, whether or not its report is deduplicated away.  A task that
    completes, a contract violation, a direct call of [logError], a late
    continuation and [setStatsigMetadata] write nothing. *)
Theorem console_gets_every_unexpected_failure (op : Operation) (w : World) :
  console_errors (perform op w)
  = console_errors w
    ++ match op with
       | Capture _ task _ _ | Swallow _ task _ =>
           match unexpected task with
           | Some e => [("[Statsig] An unexpected exception occurred.", e)]
           | None => []
           end
       | _ => []
       end.
Proof.
  unfold console_errors. rewrite perform_trace, omap_app. f_equal.
  destruct op as [tag task recover options|tag task options|tag error g|metadata
                 |tag error extra];
    cbn [events_of].
  - destruct (unexpected task) as [e|]; [|reflexivity].
    rewrite !omap_app.
    destruct (extractor_events_are_silent (getExtraData options)) as (-> & _).
    destruct (fetches_are_silent
                (sent tag e (awaited (getExtraData options)) (self w))) as (-> & _).
    reflexivity.
  - destruct (unexpected task) as [e|]; [|reflexivity].
    rewrite !omap_app.
    destruct (extractor_events_are_silent (getExtraData options)) as (-> & _).
    destruct (fetches_are_silent
                (sent tag e (awaited (getExtraData options)) (self w))) as (-> & _).
    reflexivity.
  - rewrite omap_app.
    destruct (extractor_events_are_silent g) as (-> & _).
    destruct (fetches_are_silent (sent tag error (awaited g) (self w))) as (-> & _).
    reflexivity.
  - reflexivity.
  - by destruct (fetches_are_silent (sent tag error (Normal extra) (self w))) as (-> & _).
Qed.

(** X5.  One [capture] call invokes the task exactly once, whatever the task
    does and whatever the marker store says, and invokes [recover] exactly
    once when the task fails with anything but a contract violation and not
    at all otherwise. *)
Theorem capture_calls_task_once_and_recover_on_failure
    (tag : string) (task recover : completion value) (options : CaptureOptions)
    (w : World) :
  task_calls (snd (capture tag task recover options w)) = S (task_calls w)
  /\ recover_calls (snd (capture tag task recover options w))
     = (recover_calls w
        + match unexpected task with Some _ => 1 | None => 0 end)%nat.
Proof.
  pose proof (perform_trace (Capture tag task recover options) w) as Ht.
  cbn [perform events_of] in Ht.
  unfold task_calls, recover_calls. rewrite Ht, !List.filter_app, !length_app.
  destruct (unexpected task) as [e|]; cbn [app List.filter is_task_call is_recover_call length].
  - rewrite !List.filter_app, !length_app.
    destruct (extractor_events_are_silent (getExtraData options)) as (_ & -> & ->).
    destruct (fetches_are_silent
                (sent tag e (awaited (getExtraData options)) (self w))) as (_ & -> & ->).
    cbn. lia.
  - lia.
Qed.

End Traces.

(** ** Recovery, and how [capture] reports *)

Section Recovery.

Context {platform : Platform}.

(** X6.  When the task fails with anything but a contract violation, what
    [recover()] does is what comes out of [capture].  An error thrown by
    [recover()] is thrown by [capture] for a synchronous failure and rejects
    the returned promise for a rejected task, and it is not looked at again,
    whatever its kind.  A promise returned by [recover()] is what [capture]
    returns, or what its promise follows. *)
Theorem recovery_outcome_leaves_capture
    (tag : string) (options : CaptureOptions) (w : World)
    (async : bool) (e x : value) (p : settled) :
  contract_violation e = false ->
  fst (capture tag (fails async e) (Throw x) options w) = fails async x
  /\ (well_formed p = true ->
      fst (capture tag (fails async e) (Normal (VPromise p)) options w)
      = Normal (VPromise p)).
Proof.
  intros He. rewrite !(capture_result_unexpected _ _ _ _ _ _ He).
  split; [destruct async; reflexivity|].
  intros Hp. destruct async; [|reflexivity].
  destruct p as [v|r]; [|reflexivity].
  destruct v; try discriminate Hp; reflexivity.
Qed.

(** X7.  For a failure that is not a contract violation, [capture] reports
    exactly as a direct call of [logError] with the same tag, the failure and
    the extractor of the options would: the same requests go out and the
    instance is left the same, for a thrown failure and a rejected promise
    alike, whatever [recover] and the markers do. *)
Theorem capture_reports_like_logError
    (tag : string) (recover : completion value) (options : CaptureOptions)
    (w : World) (async : bool) (e : value) :
  contract_violation e = false ->
  requests (snd (capture tag (fails async e) recover options w))
  = requests (snd (logError tag e (getExtraData options) w))
  /\ self (snd (capture tag (fails async e) recover options w))
     = self (snd (logError tag e (getExtraData options) w)).
Proof.
  intros He.
  assert (Hun : unexpected (fails async e) = Some e).
  { destruct async; cbn; by rewrite He. }
  rewrite logError_spec. cbn [snd].
  destruct (reported_spec tag e (getExtraData options) w) as (Hs & _).
  rewrite requests_reported, Hs.
  destruct (capture_world tag (fails async e) recover options w) as (_ & H).
  rewrite Hun in H. destruct H as (Hself & Ht). split; [|exact Hself].
  unfold requests at 1. rewrite Ht, !omap_app.
  rewrite extractor_events_no_request, requests_of_fetches.
  cbn. by rewrite app_nil_r.
Qed.

End Recovery.

Lemma recovery_outcome_leaves_capture_witness :
  fst (@capture online "checkGate" (fails true type_error) (Throw uninitialized)
         no_options sampled_out)
  = Normal (VPromise (Rejected uninitialized))
  /\ fst (@capture online "updateUser" (fails false type_error)
            (Normal (VPromise (Fulfilled VUndefined))) no_options sampled_out)
     = Normal (VPromise (Fulfilled VUndefined)).
Proof.
  split.
  - destruct (@recovery_outcome_leaves_capture online "checkGate" no_options
                sampled_out true type_error uninitialized (Fulfilled VNull))
      as (H & _); [reflexivity | exact H].
  - destruct (@recovery_outcome_leaves_capture online "updateUser" no_options
                sampled_out false type_error VNull (Fulfilled VUndefined))
      as (_ & H); [reflexivity | apply H; reflexivity].
Defined.

Lemma capture_reports_like_logError_witness :
  requests (snd (@capture online "checkGate" (fails true type_error)
                   (Normal (VBool false))
                   {| getExtraData := Some extra_ok; configName := Some "a_gate" |}
                   sampled_in))
  = requests (snd (@logError online "checkGate" type_error (Some extra_ok) sampled_in)).
Proof.
  apply (@capture_reports_like_logError online "checkGate" (Normal (VBool false))
           {| getExtraData := Some extra_ok; configName := Some "a_gate" |}
           sampled_in true type_error).
  reflexivity.
Defined.

(** ** What a session keeps *)

Section Session_invariants.

Context {platform : Platform}.

(** X10.  Over any sequence of operations the [seen] set only grows, the sdk
    key stays what the constructor was given, and the stored metadata is what
    the last [setStatsigMetadata] stored (or what it was, when there was
    none): no other operation touches it. *)
Theorem session_keeps_names_key_and_metadata (ops : list Operation) (w : World) :
  (seen (self w) ⊆ seen (self (session ops w)))
  /\ sdkKey (self (session ops w)) = sdkKey (self w)
  /\ statsigMetadata (self (session ops w))
     = last_metadata ops (statsigMetadata (self w)).
Proof.
  split; [apply session_seen_mono|].
  revert w. induction ops as [|op ops IH]; intros w; [by split|].
  change (session (op :: ops) w) with (session ops (perform op w)).
  destruct (IH (perform op w)) as (Hk & Hm).
  destruct (perform_self op w) as (Hk' & Hm').
  rewrite Hk, Hk', Hm, Hm'. split; [reflexivity|].
  destruct op; reflexivity.
Qed.

(** X11.  In a session there are never more reports than names in [seen]:
    each request handed to [fetch] has used up a name of its own. *)
Theorem reports_bounded_by_seen_names
    (key : string) (random : Q) (d : Diagnostics.t) (ops : list Operation) :
  let w := session ops (constructor key random d) in
  (length (requests w) <= size (seen (self w)))%nat.
Proof.
  intros w.
  destruct (session_deduplicated ops _ (constructor_deduplicated key random d))
    as (Hnd & Hlen & Hin).
  fold w in Hnd, Hlen, Hin. rewrite <- Hlen.
  change (size (seen (self w))) with (length (elements (seen (self w)))).
  apply submseteq_length, NoDup_submseteq; [exact Hnd|].
  intros n Hn. apply elem_of_elements, Hin, Hn.
Qed.

End Session_invariants.

(** ** Sampling *)

(** X13.  With [Math.random()] in [0, 1) a new instance gets the marker
    capacity 30 exactly when the random number is below 1/10000, and the
    capacity 0 in every other case. *)
Theorem sampled_in_below_one_in_ten_thousand
    (key : string) (random : Q) (d : Diagnostics.t) :
  (0 <= random)%Q ->
  (Diagnostics.maxMarkers (diagnostics (constructor key random d)) = 30%nat
   <-> (random < 1 # 10000)%Q)
  /\ (Diagnostics.maxMarkers (diagnostics (constructor key random d)) = 0%nat
      <-> ~ (random < 1 # 10000)%Q).
Proof.
  intros Hpos. pose proof (sampling_zero_iff random Hpos) as Hiff.
  change (Diagnostics.maxMarkers (diagnostics (constructor key random d)))
    with (if Z.eqb (Qfloor (random * inject_Z SAMPLING_RATE)) 0
          then MAX_DIAGNOSTICS_MARKERS else 0%nat).
  destruct (Z.eqb_spec (Qfloor (random * inject_Z SAMPLING_RATE)) 0) as [H0|H0].
  - split; split; try discriminate; intros H.
    + by apply Hiff.
    + reflexivity.
    + exfalso. apply H. by apply Hiff.
  - split; split; try discriminate; intros H.
    + exfalso. apply H0. by apply Hiff.
    + intros Hlt. apply H0. by apply Hiff.
    + reflexivity.
Qed.

Lemma sampled_in_below_one_in_ten_thousand_witness :
  Diagnostics.maxMarkers (diagnostics (constructor "client-key" (1 # 20000) no_markers))
  = 30%nat.
Proof.
  destruct (sampled_in_below_one_in_ten_thousand "client-key" (1 # 20000) no_markers)
    as (H & _).
  - discriminate.
  - apply H. reflexivity.
Defined.

(** ** What a report carries *)

Section Report_content.

Context {platform : Platform}.

Lemma report_of_new_name (op : Operation) (w : World)
    (tag : string) (e extra : value) :
  failure_of op = Some (tag, e, Normal extra) ->
  failure_name e ∉ seen (self w) ->
  requests (perform op w)
  = requests w
    ++ match JSON_stringify
               (report_payload tag e (default [] (statsigMetadata (self w))) extra) with
       | Normal body =>
           [report_request (sdkKey (self w)) (default [] (statsigMetadata (self w))) body]
       | Throw _ => []
       end
  /\ seen (self (perform op w)) = {[failure_name e]} ∪ seen (self w).
Proof.
  intros Hop Hnew.
  destruct (perform_spec op w) as (_ & _ & H). rewrite Hop in H.
  destruct H as (-> & ->). unfold sent, noted.
  destruct (decide _) as [|_]; [contradiction|]. split; [|reflexivity].
  destruct (JSON_stringify _); reflexivity.
Qed.

Lemma payload_serializable (tag : string) (e : value)
    (metadata : list (string * value)) (extra : value) :
  serializable (report_payload tag e metadata extra)
  = serializable (failure_info e) && serializable (VObj metadata)
    && serializable (nullish extra (VObj [])).
Proof.
  unfold report_payload. cbn [serializable andb].
  destruct (serializable (failure_info e)); [|reflexivity].
  cbn [andb]. by rewrite andb_true_r.
Qed.

(** X1.  The metadata stored by [setStatsigMetadata] is what the next report
    carries, whatever was stored before: it is the [statsigMetadata] of the
    body, and its [sdkType] and [sdkVersion], turned into strings, are the
    two SDK headers.  This holds for a failure reported by [capture],
    [swallow] or [logError] and for a continuation that runs after the
    metadata was stored. *)
Theorem stored_metadata_reaches_the_report
    (op : Operation) (w : World) (tag : string) (e extra : value)
    (metadata : list (string * value)) :
  failure_of op = Some (tag, e, Normal extra) ->
  failure_name e ∉ seen (self w) ->
  serializable (report_payload tag e metadata extra) = true ->
  requests (perform op (perform (SetStatsigMetadata metadata) w))
  = requests w
    ++ [{| url := "https://statsigapi.net/v1/sdk_exception";
           method := "POST";
           headers :=
             [("STATSIG-API-KEY", VStr (sdkKey (self w)));
              ("STATSIG-SDK-TYPE", String_ (get_prop "sdkType" metadata));
              ("STATSIG-SDK-VERSION", String_ (get_prop "sdkVersion" metadata));
              ("Content-Type", VStr "application/json; charset=UTF-8")];
           body := VJson (report_payload tag e metadata extra) |}].
Proof.
  intros Hop Hnew Hser.
  destruct (report_of_new_name op (perform (SetStatsigMetadata metadata) w)
              tag e extra Hop Hnew) as (Hr & _).
  rewrite Hr. cbn [perform setStatsigMetadata snd self statsigMetadata sdkKey default].
  unfold id. rewrite stringify_payload, Hser. reflexivity.
Qed.

(** X2.  As long as no metadata was stored, a report goes out all the same:
    the two SDK headers are then the string "undefined" and the
    [statsigMetadata] of the body is the empty object. *)
Theorem report_without_metadata
    (op : Operation) (w : World) (tag : string) (e extra : value) :
  statsigMetadata (self w) = None ->
  failure_of op = Some (tag, e, Normal extra) ->
  failure_name e ∉ seen (self w) ->
  serializable (report_payload tag e [] extra) = true ->
  requests (perform op w)
  = requests w
    ++ [{| url := "https://statsigapi.net/v1/sdk_exception";
           method := "POST";
           headers :=
             [("STATSIG-API-KEY", VStr (sdkKey (self w)));
              ("STATSIG-SDK-TYPE", VStr "undefined");
              ("STATSIG-SDK-VERSION", VStr "undefined");
              ("Content-Type", VStr "application/json; charset=UTF-8")];
           body :=
             VJson
               (VObj
                  [("tag", VStr tag);
                   ("exception", VStr (failure_name e));
                   ("info", failure_info e);
                   ("statsigMetadata", VObj []);
                   ("extra", nullish extra (VObj []))]) |}].
Proof.
  intros Hnone Hop Hnew Hser.
  destruct (report_of_new_name op w tag e extra Hop Hnew) as (Hr & _).
  rewrite Hr, Hnone. cbn [default].
  rewrite stringify_payload, Hser. reflexivity.
Qed.

(** X3.  The name of a failure is put into [seen] before the body is
    serialised.  When [JSON.stringify] then refuses the body, no request goes
    out, the name stays in [seen], and for the rest of the session no failure
    of that name is reported, even one whose body could be serialised. *)
Theorem unserialisable_report_loses_the_name
    (op : Operation) (w : World) (tag : string) (e extra : value)
    (later : list Operation) (op' : Operation) (tag' : string) (e' : value)
    (answer' : completion value) :
  failure_of op = Some (tag, e, Normal extra) ->
  failure_name e ∉ seen (self w) ->
  serializable
    (report_payload tag e (default [] (statsigMetadata (self w))) extra) = false ->
  failure_of op' = Some (tag', e', answer') ->
  failure_name e' = failure_name e ->
  requests (perform op w) = requests w
  /\ (failure_name e ∈ seen (self (perform op w)))
  /\ requests (perform op' (session later (perform op w)))
     = requests (session later (perform op w)).
Proof.
  intros Hop Hnew Hser Hop' Hsame.
  destruct (report_of_new_name op w tag e extra Hop Hnew) as (Hr & Hs).
  rewrite stringify_payload, Hser, app_nil_r in Hr.
  assert (Hin : failure_name e ∈ seen (self (perform op w))).
  { rewrite Hs. apply elem_of_union. left. by apply elem_of_singleton. }
  split; [exact Hr|]. split; [exact Hin|].
  apply seen_failure_sends_nothing with (tag := tag') (e := e') (answer := answer');
    [exact Hop'|].
  rewrite Hsame. by apply (session_seen_mono later (perform op w)).
Qed.

(** X12.  A failure value that is not an [Error] (and not null or undefined)
    is reported under "No Name" with its JSON text as [info]; when the value
    cannot be serialised, [getDescription] does not fail and the report goes
    out with the fixed text "[Statsig] Failed to get string for error." as
    [info]. *)
Theorem non_Error_failure_is_described
    (op : Operation) (w : World) (tag : string) (e extra : value) :
  instanceof e Error = false ->
  e <> VUndefined ->
  e <> VNull ->
  failure_of op = Some (tag, e, Normal extra) ->
  "No Name" ∉ seen (self w) ->
  serializable (VObj (default [] (statsigMetadata (self w)))) = true ->
  serializable (nullish extra (VObj [])) = true ->
  requests (perform op w)
  = requests w
    ++ [report_request (sdkKey (self w)) (default [] (statsigMetadata (self w)))
          (VJson
             (VObj
                [("tag", VStr tag);
                 ("exception", VStr "No Name");
                 ("info",
                  if serializable e then VJson e
                  else VStr "[Statsig] Failed to get string for error.");
                 ("statsigMetadata", VObj (default [] (statsigMetadata (self w))));
                 ("extra", nullish extra (VObj []))]))].
Proof.
  intros Hne Hu Hn Hop Hnew Hmd Hextra.
  assert (Hname : failure_name e = "No Name").
  { unfold failure_name, unwrap.
    destruct e as [| | | | | | | |cls ? ? ?|];
      try contradiction; try reflexivity.
    destruct cls; discriminate Hne. }
  assert (Hinfo : failure_info e
                  = if serializable e then VJson e
                    else VStr "[Statsig] Failed to get string for error.").
  { unfold failure_info, unwrap, getDescription, JSON_stringify.
    destruct e as [| | | | | | | |cls ? ? ?|];
      try contradiction; try reflexivity.
    - cbn [nullish instanceof]. destruct (serializable (VObj props)); reflexivity.
    - destruct cls; discriminate Hne. }
  rewrite <- Hname in Hnew.
  destruct (report_of_new_name op w tag e extra Hop Hnew) as (Hr & _).
  rewrite Hr, stringify_payload, payload_serializable, Hmd, Hextra, Hinfo.
  replace (serializable
             (if serializable e then VJson e
              else VStr "[Statsig] Failed to get string for error."))
    with true by (destruct (serializable e); reflexivity).
  cbn [andb]. unfold report_payload. rewrite Hname, Hinfo. reflexivity.
Qed.

End Report_content.

Lemma stored_metadata_reaches_the_report_witness :
  requests
    (@perform online (LogError "logEvent" type_error None)
       (@perform online
          (SetStatsigMetadata [("sdkType", VStr "js-client"); ("sdkVersion", VNum "4.2")])
          sampled_out))
  = requests sampled_out
    ++ [{| url := "https://statsigapi.net/v1/sdk_exception";
           method := "POST";
           headers :=
             [("STATSIG-API-KEY", VStr "client-key");
              ("STATSIG-SDK-TYPE", VStr "js-client");
              ("STATSIG-SDK-VERSION", VStr "4.2");
              ("Content-Type", VStr "application/json; charset=UTF-8")];
           body :=
             VJson
               (@report_payload online "logEvent" type_error
                  [("sdkType", VStr "js-client"); ("sdkVersion", VNum "4.2")] VNull) |}].
Proof.
  apply (@stored_metadata_reaches_the_report online
           (LogError "logEvent" type_error None) sampled_out "logEvent" type_error VNull
           [("sdkType", VStr "js-client"); ("sdkVersion", VNum "4.2")]).
  - reflexivity.
  - apply (bool_decide_unpack _). vm_compute. exact I.
  - reflexivity.
Defined.

Lemma report_without_metadata_witness :
  map headers
    (requests (@perform online (LogError "logEvent" type_error None) sampled_out))
  = [[("STATSIG-API-KEY", VStr "client-key");
      ("STATSIG-SDK-TYPE", VStr "undefined");
      ("STATSIG-SDK-VERSION", VStr "undefined");
      ("Content-Type", VStr "application/json; charset=UTF-8")]].
Proof.
  rewrite (@report_without_metadata online (LogError "logEvent" type_error None)
             sampled_out "logEvent" type_error VNull).
  - reflexivity.
  - reflexivity.
  - reflexivity.
  - apply (bool_decide_unpack _). vm_compute. exact I.
  - reflexivity.
Defined.

(** The extractor answers with a BigInt: the TypeError is never reported in
    this session. *)
Lemma unserialisable_report_loses_the_name_witness :
  let w := @perform online
             (LogError "logEvent" type_error
                (Some (Normal (VPromise (Fulfilled (VObj [("count", VBigInt 1)]))))))
             sampled_out in
  requests w = []
  /\ requests (@perform online
                 (Capture "checkGate" (Throw type_error) (Normal (VBool false)) no_options)
                 w)
     = requests w.
Proof.
  intros w.
  destruct (@unserialisable_report_loses_the_name online
              (LogError "logEvent" type_error
                 (Some (Normal (VPromise (Fulfilled (VObj [("count", VBigInt 1)]))))))
              sampled_out "logEvent" type_error (VObj [("count", VBigInt 1)])
              []
              (Capture "checkGate" (Throw type_error) (Normal (VBool false)) no_options)
              "checkGate" type_error (Normal VNull))
    as (H1 & _ & H3).
  - reflexivity.
  - apply (bool_decide_unpack _). vm_compute. exact I.
  - reflexivity.
  - reflexivity.
  - reflexivity.
  - split; [exact H1 | exact H3].
Defined.

Lemma non_Error_failure_is_described_witness :
  map body
    (requests
       (@perform online
          (Capture "checkGate" (Throw (VBigInt 10)) (Normal (VBool false)) no_options)
          sampled_out))
  = [VJson
       (VObj
          [("tag", VStr "checkGate");
           ("exception", VStr "No Name");
           ("info", VStr "[Statsig] Failed to get string for error.");
           ("statsigMetadata", VObj []);
           ("extra", VObj [])])].
Proof.
  rewrite (@non_Error_failure_is_described online
             (Capture "checkGate" (Throw (VBigInt 10)) (Normal (VBool false)) no_options)
             sampled_out "checkGate" (VBigInt 10) VNull).
  - reflexivity.
  - reflexivity.
  - discriminate.
  - discriminate.
  - reflexivity.
  - apply (bool_decide_unpack _). vm_compute. exact I.
  - reflexivity.
  - reflexivity.
Defined.

(** ** Markers of a synchronous task *)

Section Sync_markers.

Context {platform : Platform}.

(** X8.  When [beginMarker] recorded the start of a synchronous task, its id
    is the tag, an underscore and the number of markers recorded before, and
    [capture] ends exactly that marker, with the success flag of the task and
    the configName of the options.  It does so before a contract violation
    is rethrown as well, and it adds no other marker. *)
Theorem sync_task_marker_is_ended
    (tag : string) (task recover : completion value) (options : CaptureOptions)
    (w : World) (id : string) :
  marker_of tag w = Some id ->
  match task with Normal v => instanceof_Promise v = false | Throw _ => True end ->
  let ending :=
    {| Diagnostics.success := match task with Normal _ => true | Throw _ => false end;
       Diagnostics.configName := configName options |} in
  id = tag +:+ "_" +:+ pretty (length (Diagnostics.markers (diagnostics w)))
  /\ Diagnostics.markers (diagnostics (snd (capture tag task recover options w)))
     = map (Diagnostics.close id ending) (Diagnostics.markers (diagnostics w))
       ++ [{| Diagnostics.tag := tag; Diagnostics.markerID := id;
              Diagnostics.ended := Some ending |}].
Proof.
  intros Hid Hsync ending.
  destruct (begun_started tag w id Hid) as (Hf & Hm).
  split.
  - revert Hid. unfold marker_of, beginMarker, Diagnostics.start.
    cbn [Diagnostics.mark_error_boundary Diagnostics.getMarkerCount].
    destruct (Nat.ltb _ _); cbn; [|discriminate]. by intros [= <-].
  - assert (Hend : forall ok,
      Diagnostics.markers
        (diagnostics
           (finished tag ok (Some id) (configName options)
              (add_trace [CallTask] (begun tag w))))
      = map (Diagnostics.close id
               {| Diagnostics.success := ok;
                  Diagnostics.configName := configName options |})
          (Diagnostics.markers (diagnostics w))
        ++ [{| Diagnostics.tag := tag; Diagnostics.markerID := id;
               Diagnostics.ended :=
                 Some {| Diagnostics.success := ok;
                         Diagnostics.configName := configName options |} |}]).
    { intros ok. unfold finished, endMarker.
      cbn [Diagnostics.mark_error_boundary]. rewrite Hf. cbn.
      rewrite Hm, map_app. f_equal. cbn.
      unfold Diagnostics.close. cbn. by rewrite String.eqb_refl. }
    rewrite capture_diagnostics, Hid. subst ending.
    destruct task as [v|e]; [|apply Hend].
    destruct v; try discriminate Hsync; apply Hend.
Qed.

(** X9.  When the marker store has no room left, [beginMarker] hands back
    [null] and [capture] leaves the store exactly as it found it: no marker
    is added and none is ended, whatever the task does. *)
Theorem full_store_is_left_alone
    (tag : string) (task recover : completion value) (options : CaptureOptions)
    (w : World) :
  (Diagnostics.maxMarkers (diagnostics w)
   <= length (Diagnostics.markers (diagnostics w)))%nat ->
  marker_of tag w = None
  /\ diagnostics (snd (capture tag task recover options w)) = diagnostics w.
Proof.
  intros Hfull.
  assert (Hid : marker_of tag w = None /\ diagnostics (begun tag w) = diagnostics w).
  { unfold marker_of, begun, beginMarker, Diagnostics.start.
    cbn [Diagnostics.mark_error_boundary Diagnostics.getMarkerCount].
    replace (Nat.ltb _ _) with false by (symmetry; apply Nat.ltb_ge; lia).
    cbn. auto. }
  destruct Hid as (Hnone & Hd). split; [exact Hnone|].
  rewrite capture_diagnostics, Hnone.
  assert (Hend : forall ok cn,
            diagnostics (finished tag ok None cn (add_trace [CallTask] (begun tag w)))
            = diagnostics w).
  { intros ok cn. unfold finished, endMarker. cbn. exact Hd. }
  destruct task as [v|e]; [|apply Hend].
  destruct v as [| | | | | | | | |[v|e]]; try apply Hend.
  destruct (contract_violation e); [exact Hd|].
  destruct recover as [r|]; [|exact Hd].
  destruct (resolve r); [apply Hend|exact Hd].
Qed.

End Sync_markers.

Lemma sync_task_marker_is_ended_witness :
  Diagnostics.markers
    (diagnostics
       (snd (@capture online "checkGate" (Throw uninitialized) (Normal (VBool false))
               {| getExtraData := None; configName := Some "a_gate" |} sampled_in)))
  = [{| Diagnostics.tag := "checkGate"; Diagnostics.markerID := "checkGate_0";
        Diagnostics.ended :=
          Some {| Diagnostics.success := false;
                  Diagnostics.configName := Some "a_gate" |} |}].
Proof.
  destruct (@sync_task_marker_is_ended online "checkGate" (Throw uninitialized)
              (Normal (VBool false))
              {| getExtraData := None; configName := Some "a_gate" |}
              sampled_in "checkGate_0") as (_ & H).
  - reflexivity.
  - exact I.
  - exact H.
Defined.

Lemma full_store_is_left_alone_witness :
  diagnostics
    (snd (@capture online "getConfig" (Throw type_error) (Normal VNull)
            {| getExtraData := None; configName := Some "a_config" |}
            (set_diagnostics full_store sampled_in)))
  = full_store.
Proof.
  apply (@full_store_is_left_alone online "getConfig" (Throw type_error) (Normal VNull)
           {| getExtraData := None; configName := Some "a_config" |}
           (set_diagnostics full_store sampled_in)).
  cbn. lia.
Defined.
